(** * Schema derivation of trpc-to-openapi

    A shallow embedding of [getParameterObjects], [getRequestBodyObject],
    [errorResponseObject] and [getResponsesObject], with the Zod nodes they
    inspect, and the properties of the derivation that the specification
    states. *)

From Stdlib Require Import String List Bool Arith Lia.
Import ListNotations.
Open Scope string_scope.
Open Scope list_scope.

Set Implicit Arguments.
Set Warnings "-register-all".

(** ** JavaScript objects used as string-keyed tables

    A plain object is a list of its own properties in [Object.keys] order.
    Writing a property that exists replaces its value in place, writing a
    new one appends it.  JavaScript enumerates integer-like keys first, in
    numeric order, whenever they were written: the order of a list is the
    [Object.keys] order of the object only when it holds no integer-like
    key or was filled in [Object.keys] order. *)

Section JsObject.
Variable V : Type.

Definition JsObject := list (string * V).

Fixpoint obj_get (o : JsObject) (k : string) : option V :=
  match o with
  | [] => None
  | (k', v) :: o' => if String.eqb k' k then Some v else obj_get o' k
  end.

Fixpoint obj_set (o : JsObject) (k : string) (v : V) : JsObject :=
  match o with
  | [] => [(k, v)]
  | (k', v') :: o' =>
      if String.eqb k' k then (k', v) :: o' else (k', v') :: obj_set o' k v
  end.

Definition Object_keys (o : JsObject) : list string := map fst o.

End JsObject.

(** [Array.prototype.includes] on an array of strings. *)
Definition includes (l : list string) (x : string) : bool :=
  existsb (String.eqb x) l.

(** The members of [Object.prototype].  A plain object [{}] inherits them,
    and each of them is truthy. *)
Definition Object_prototype_keys : list string :=
  ["constructor"; "__defineGetter__"; "__defineSetter__"; "hasOwnProperty";
   "__lookupGetter__"; "__lookupSetter__"; "isPrototypeOf";
   "propertyIsEnumerable"; "toString"; "valueOf"; "__proto__";
   "toLocaleString"].

(** The truth value of [o[k]] on a plain object [o] of booleans: the own
    property when there is one, an inherited member of [Object.prototype]
    otherwise. *)
Definition obj_truthy (o : JsObject bool) (k : string) : bool :=
  match obj_get o k with
  | Some b => b
  | None => includes Object_prototype_keys k
  end.




(** The double quote character of the template literals. *)
Definition dquote : string := String (Ascii.ascii_of_nat 34) EmptyString.

(** ** Exceptions

    Every [throw] of the module raises a [TRPCError] with a message and a
    code.  [TypeError] is what the JavaScript runtime raises when a property
    of [undefined] is read; the derivers guard every such access. *)

Module TRPCError.
Record t := { message : string; code : string }.
End TRPCError.

Inductive Exception :=
| TRPC (e : TRPCError.t)
| TypeError.

Inductive Result (A : Type) :=
| Ok (a : A)
| Throw (e : Exception).
Arguments Ok {A} a.
Arguments Throw {A} e.

Definition bind {A B} (r : Result A) (k : A -> Result B) : Result B :=
  match r with
  | Ok a => k a
  | Throw e => Throw e
  end.

Notation "x <- e ;; k" := (bind e (fun x => k))
  (at level 61, e at next level, right associativity).

Definition throw_TRPCError {A} (message code : string) : Result A :=
  Throw (TRPC {| TRPCError.message := message; TRPCError.code := code |}).

(** [array.map(f)] where [f] may throw: the first exception leaves the loop. *)
Fixpoint mapM {A B} (f : A -> Result B) (l : list A) : Result (list B) :=
  match l with
  | [] => Ok []
  | a :: l' => b <- f a ;; bs <- mapM f l' ;; Ok (b :: bs)
  end.

(** [for (const x of l) body]. *)
Fixpoint for_of {A} (l : list A) (body : A -> Result unit) : Result unit :=
  match l with
  | [] => Ok tt
  | a :: l' => _ <- body a ;; for_of l' body
  end.

(** ** Zod nodes *)

Inductive ZodFirstPartyTypeKind :=
| ZodString | ZodNumber | ZodBigInt | ZodBoolean | ZodDate
| ZodUndefined | ZodVoid | ZodNever
| ZodArray | ZodObject
| ZodOptional | ZodNullable | ZodDefault | ZodEffects.

Scheme Equality for ZodFirstPartyTypeKind.

(** Values that appear in the metadata of [.openapi({...})]. *)
Inductive JsonValue :=
| JsonString (s : string)
| JsonArray (items : list JsonValue).

Module Metadata.
Record t := {
  description : option string;
  example : option JsonValue;
  ref : option string;
  title : option string
}.

(** The metadata without its [ref]: what zod-openapi leaves on the result
    of [omit]. *)
Definition withoutRef (m : t) : t :=
  {| description := description m;
     example := example m;
     ref := None;
     title := title m |}.
End Metadata.

(** The [_def] of a node: its kind and what it wraps. *)
Inductive ZodTypeDef (T : Type) :=
| StringDef | NumberDef | BigIntDef | BooleanDef | DateDef
| UndefinedDef | VoidDef | NeverDef
| ArrayDef (element : T)
| ObjectDef (shape : JsObject T)
| OptionalDef (innerType : T)
| NullableDef (innerType : T)
| DefaultDef (innerType : T)
| EffectsDef (inner : T).
Arguments StringDef {T}.
Arguments NumberDef {T}.
Arguments BigIntDef {T}.
Arguments BooleanDef {T}.
Arguments DateDef {T}.
Arguments UndefinedDef {T}.
Arguments VoidDef {T}.
Arguments NeverDef {T}.

(** A node is its [_def] and the OpenAPI metadata attached to it, if any. *)
Inductive ZodType :=
| Zod (_def : ZodTypeDef ZodType) (openapi : option Metadata.t).

Definition ZodRawShape := JsObject ZodType.
Definition AnyZodObject := ZodType.

Definition _def (type : ZodType) : ZodTypeDef ZodType :=
  match type with Zod d _ => d end.

Definition typeName (type : ZodType) : ZodFirstPartyTypeKind :=
  match _def type with
  | StringDef => ZodString
  | NumberDef => ZodNumber
  | BigIntDef => ZodBigInt
  | BooleanDef => ZodBoolean
  | DateDef => ZodDate
  | UndefinedDef => ZodUndefined
  | VoidDef => ZodVoid
  | NeverDef => ZodNever
  | ArrayDef _ => ZodArray
  | ObjectDef _ => ZodObject
  | OptionalDef _ => ZodOptional
  | NullableDef _ => ZodNullable
  | DefaultDef _ => ZodDefault
  | EffectsDef _ => ZodEffects
  end.

(** The constructors of the [z] namespace and the methods of a node that the
    derivers call. *)
Module z.
Definition string : ZodType := Zod StringDef None.
Definition number : ZodType := Zod NumberDef None.
Definition bigint : ZodType := Zod BigIntDef None.
Definition boolean : ZodType := Zod BooleanDef None.
Definition date : ZodType := Zod DateDef None.
Definition undefined : ZodType := Zod UndefinedDef None.
Definition void : ZodType := Zod VoidDef None.
Definition never : ZodType := Zod NeverDef None.
Definition array (element : ZodType) : ZodType := Zod (ArrayDef element) None.
Definition object (shape : ZodRawShape) : ZodType := Zod (ObjectDef shape) None.
Definition optional (type : ZodType) : ZodType := Zod (OptionalDef type) None.
Definition nullable (type : ZodType) : ZodType := Zod (NullableDef type) None.
Definition default (type : ZodType) : ZodType := Zod (DefaultDef type) None.
Definition effects (type : ZodType) : ZodType := Zod (EffectsDef type) None.

(** [type.openapi(metadata)]: the same node carrying the metadata. *)
Definition openapi (metadata : Metadata.t) (type : ZodType) : ZodType :=
  Zod (_def type) (Some metadata).

(** [object.shape]; [None] is JavaScript's [undefined] on any other node. *)
Definition shape (type : ZodType) : option ZodRawShape :=
  match _def type with
  | ObjectDef s => Some s
  | _ => None
  end.

(** [optional.unwrap()]: the node under one optional layer. *)
Definition unwrap (type : ZodType) : option ZodType :=
  match _def type with
  | OptionalDef inner => Some inner
  | _ => None
  end.

(** [object.omit(mask)]: Zod keeps the fields [key] of the shape for which
    [!mask[key]] holds.  On a plain object mask that read goes through the
    prototype, so a field named like a member of [Object.prototype] is
    dropped too.  zod-openapi removes the [ref] of the result's metadata. *)
Definition omit (mask : JsObject bool) (type : ZodType) : option ZodType :=
  match type with
  | Zod (ObjectDef s) m =>
      Some (Zod (ObjectDef (filter (fun kv => negb (obj_truthy mask (fst kv))) s))
                (option_map Metadata.withoutRef m))
  | _ => None
  end.
End z.

(** Induction on a node along the layers that wrap one inner node. *)
Section WrapperInduction.
Variable P : ZodType -> Prop.
Hypothesis P_optional : forall inner m, P inner -> P (Zod (OptionalDef inner) m).
Hypothesis P_nullable : forall inner m, P inner -> P (Zod (NullableDef inner) m).
Hypothesis P_default : forall inner m, P inner -> P (Zod (DefaultDef inner) m).
Hypothesis P_effects : forall inner m, P inner -> P (Zod (EffectsDef inner) m).
Hypothesis P_other :
  forall type,
    match _def type with
    | OptionalDef _ | NullableDef _ | DefaultDef _ | EffectsDef _ => False
    | _ => True
    end -> P type.

Fixpoint ZodType_wrapper_ind (type : ZodType) : P type :=
  match type with
  | Zod (OptionalDef inner) m => P_optional m (ZodType_wrapper_ind inner)
  | Zod (NullableDef inner) m => P_nullable m (ZodType_wrapper_ind inner)
  | Zod (DefaultDef inner) m => P_default m (ZodType_wrapper_ind inner)
  | Zod (EffectsDef inner) m => P_effects m (ZodType_wrapper_ind inner)
  | Zod StringDef m => P_other (Zod StringDef m) I
  | Zod NumberDef m => P_other (Zod NumberDef m) I
  | Zod BigIntDef m => P_other (Zod BigIntDef m) I
  | Zod BooleanDef m => P_other (Zod BooleanDef m) I
  | Zod DateDef m => P_other (Zod DateDef m) I
  | Zod UndefinedDef m => P_other (Zod UndefinedDef m) I
  | Zod VoidDef m => P_other (Zod VoidDef m) I
  | Zod NeverDef m => P_other (Zod NeverDef m) I
  | Zod (ArrayDef e) m => P_other (Zod (ArrayDef e) m) I
  | Zod (ObjectDef s) m => P_other (Zod (ObjectDef s) m) I
  end.
End WrapperInduction.

(** ** utils/zod: the classifier of nodes *)

(** What the derivers receive as [schema: unknown]: a Zod node, or any other
    JavaScript value. *)
Inductive unknown :=
| IsZodType (type : ZodType)
| NotZodType (value : JsonValue).

(** Modelled from the spec: [instanceofZodType] of utils/zod, the spec's
    [isValidatorNode]: true iff the value is a recognized validator node.
    As a type guard it gives the node. *)
Definition asZodType (x : unknown) : option ZodType :=
  match x with
  | IsZodType type => Some type
  | NotZodType _ => None
  end.

Definition instanceofZodType (x : unknown) : bool :=
  match asZodType x with Some _ => true | None => false end.

(** Modelled from the spec: [instanceofZodTypeKind] of utils/zod, the spec's
    [kindIs]: the structural kind test. *)
Definition instanceofZodTypeKind (type : ZodType) (kind : ZodFirstPartyTypeKind) : bool :=
  ZodFirstPartyTypeKind_beq (typeName type) kind.

(** Modelled from the spec: [instanceofZodTypeOptional] of utils/zod, the
    spec's [isOptionalWrapper]: the node is one optional layer over an inner
    node. *)
Definition instanceofZodTypeOptional (type : ZodType) : bool :=
  instanceofZodTypeKind type ZodOptional.

(** Modelled from the spec: [unwrapZodType] of utils/zod, the spec's
    [unwrap(node, throughOptional)]: it strips the pass-through layers
    (default, transform/effect, nullable) and, if requested, the optional
    layers, until no further layer applies. *)
Fixpoint unwrapZodType (type : ZodType) (throughOptional : bool) : ZodType :=
  match type with
  | Zod (DefaultDef inner) _ => unwrapZodType inner throughOptional
  | Zod (EffectsDef inner) _ => unwrapZodType inner throughOptional
  | Zod (NullableDef inner) _ => unwrapZodType inner throughOptional
  | Zod (OptionalDef inner) _ =>
      if throughOptional then unwrapZodType inner throughOptional else type
  | _ => type
  end.

(** Modelled from the spec: [instanceofZodTypeObject] of utils/zod, the
    spec's [isObjectLike]: true iff, after unwrapping pass-through layers,
    the node is an object-shape node. *)
Definition instanceofZodTypeObject (type : ZodType) : bool :=
  instanceofZodTypeKind (unwrapZodType type false) ZodObject.

(** Modelled from the spec: [instanceofZodTypeLikeVoid] of utils/zod: the
    node is of the void kind, which accepts only the absence of a value. *)
Definition instanceofZodTypeLikeVoid (type : ZodType) : bool :=
  instanceofZodTypeKind type ZodVoid.

(** Modelled from the spec: [instanceofZodTypeLikeString] of utils/zod, the
    spec's [isStringLike]: the field's unwrapped node natively parses from a
    string. *)
Definition instanceofZodTypeLikeString (type : ZodType) : bool :=
  instanceofZodTypeKind (unwrapZodType type true) ZodString.

(** ** zod-openapi: the fragments the derivers produce *)

Inductive ParamType := Param_path | Param_query.

(** The [inType] argument: ['all' | 'path' | 'query']. *)
Inductive InType := In_all | In_path | In_query.

(** What the [.map] callback of [getParameterObjects] returns per field. *)
Module Param.
Record t := {
  name : string;
  paramType : ParamType;
  required : bool;
  schema : ZodType
}.
End Param.

Module ZodOpenApiParameters.
Record t := {
  header : option AnyZodObject;
  path : ZodType;
  query : ZodType
}.
End ZodOpenApiParameters.

(** A schema position holds a Zod node or a plain schema object; the plain
    ones written by this module are [{}] and [{ not: {} }]. *)
Inductive SchemaObject :=
| EmptySchema
| NotSchema (not : SchemaObject).

Inductive Schema :=
| ZodSchema (type : ZodType)
| PlainSchema (s : SchemaObject).

Module ZodOpenApiMediaTypeObject.
Record t := { schema : Schema }.
End ZodOpenApiMediaTypeObject.

Definition ZodOpenApiContentObject := JsObject ZodOpenApiMediaTypeObject.t.
Definition OpenApiContentType := string.

Module ZodOpenApiRequestBodyObject.
Record t := {
  required : bool;
  content : ZodOpenApiContentObject
}.
End ZodOpenApiRequestBodyObject.

Module ZodOpenApiResponseObject.
Record t := {
  description : string;
  headers : option AnyZodObject;
  content : ZodOpenApiContentObject
}.
End ZodOpenApiResponseObject.

Definition ZodOpenApiResponsesObject := JsObject ZodOpenApiResponseObject.t.

(** Zod answers [isOptional()] by parsing [undefined].  On the kinds of this
    development: an optional or defaulted node accepts it, as do the void
    and undefined kinds; a nullable or refined node accepts it when its
    inner node does.  The examples below run the derivers with it. *)
Fixpoint acceptsUndefined (type : ZodType) : bool :=
  match type with
  | Zod (OptionalDef _) _ => true
  | Zod (DefaultDef _) _ => true
  | Zod UndefinedDef _ => true
  | Zod VoidDef _ => true
  | Zod (NullableDef inner) _ => acceptsUndefined inner
  | Zod (EffectsDef inner) _ => acceptsUndefined inner
  | _ => false
  end.

(** The layers that [unwrapZodType] strips. *)
Definition isWrapper (type : ZodType) : Prop :=
  match _def type with
  | OptionalDef _ | NullableDef _ | DefaultDef _ | EffectsDef _ => True
  | _ => False
  end.

(** The field names that [omit] drops for the mask of these path
    parameters: the path parameters, which the mask holds, and the members
    of [Object.prototype], which it inherits. *)
Definition omitted (pathParameters : list string) (key : string) : bool :=
  includes pathParameters key || includes Object_prototype_keys key.

(** The field names of an object node, and those of the schemas a request
    body carries. *)
Definition fieldNames (type : ZodType) : list string :=
  match z.shape type with
  | Some s => Object_keys s
  | None => []
  end.


(** Parameters are coherent when their name determines them. *)
Definition coherent (ps : list Param.t) : Prop :=
  forall p q, In p ps -> In q ps -> Param.name p = Param.name q -> p = q.

(** The input of the specification's examples: [{ id: string, name?: string }]
    with the path parameter [id], and the fragments derived from it. *)
Definition exampleInput : ZodType :=
  z.object [("id", z.string); ("name", z.optional z.string)].

Definition exampleParameters : ZodOpenApiParameters.t :=
  {| ZodOpenApiParameters.header := None;
     ZodOpenApiParameters.path := z.object [("id", z.string)];
     ZodOpenApiParameters.query := z.object [("name", z.optional z.string)] |}.

Definition exampleQueryParameters : ZodOpenApiParameters.t :=
  {| ZodOpenApiParameters.header := None;
     ZodOpenApiParameters.path := z.object [];
     ZodOpenApiParameters.query := z.object [("name", z.optional z.string)] |}.


(** An input whose only field is an optional path parameter, and one with a
    field that no path or query string can carry. *)
Definition optionalIdInput : ZodType := z.object [("id", z.optional z.string)].

Definition tagsInput : ZodType :=
  z.object [("id", z.string); ("tags", z.array z.string)].

(** An input with an optional path parameter before a field that no path or
    query string can carry; an object with a default value; and an object
    with a field named like a member of [Object.prototype]. *)
Definition optionalIdTagsInput : ZodType :=
  z.object [("id", z.optional z.string); ("tags", z.array z.string)].

Definition defaultInput : ZodType := z.default (z.object [("name", z.string)]).

Definition constructorInput : ZodType :=
  z.object [("id", z.string); ("constructor", z.string)].

(** Whether a derived parameter goes to the [path] object, and the entry
    that the [.reduce] writes for it. *)
Definition isPathParam (p : Param.t) : bool :=
  match Param.paramType p with
  | Param_path => true
  | Param_query => false
  end.

Definition entryOf (p : Param.t) : string * ZodType :=
  (Param.name p,
   if Param.required p then Param.schema p else z.optional (Param.schema p)).

(** ** The derivers *)

Section Derivers.

(** Zod's own [isOptional()] method, which tells whether a node accepts an
    absent value.  It belongs to the validator library and is a parameter
    of the development. *)
Variable isOptional : ZodType -> bool.

(** [zodSupportsCoerce]: the coercion capability of the validator library
    build, read once when the module loads. *)
Variable zodSupportsCoerce : bool.

(** Modelled from the spec: [instanceofZodTypeCoercible] of utils/zod, the
    spec's [isCoercible]: true for nodes whose native type is number,
    boolean, big-integer or date when the validator library build supports
    coercion. *)
Definition instanceofZodTypeCoercible (type : ZodType) : bool :=
  zodSupportsCoerce &&
  let type := unwrapZodType type true in
  (instanceofZodTypeKind type ZodNumber
   || instanceofZodTypeKind type ZodBoolean
   || instanceofZodTypeKind type ZodBigInt
   || instanceofZodTypeKind type ZodDate).

Definition INTERNAL_SERVER_ERROR : string := "INTERNAL_SERVER_ERROR".

(** The callback of [shapeKeys.filter]. *)
Definition filterShapeKey (pathParameters : list string) (inType : InType)
    (shapeKey : string) : bool :=
  let isPathParameter := includes pathParameters shapeKey in
  match inType with
  | In_path => isPathParameter
  | In_query => negb isPathParameter
  | In_all => true
  end.

(** The callback of [.map]: one field of the shape to its parameter. *)
Definition mapShapeKey (isRequired : bool) (shape : ZodRawShape)
    (pathParameters : list string) (shapeKey : string) : Result Param.t :=
  match obj_get shape shapeKey with
  | None => Throw TypeError
  | Some shapeSchema =>
      let isShapeRequired := negb (isOptional shapeSchema) in
      let isPathParameter := includes pathParameters shapeKey in
      _ <- (if negb (instanceofZodTypeLikeString shapeSchema) then
              if zodSupportsCoerce then
                if negb (instanceofZodTypeCoercible shapeSchema) then
                  throw_TRPCError
                    ("Input parser key: " ++ dquote ++ shapeKey ++ dquote
                     ++ " must be ZodString, ZodNumber, ZodBoolean, ZodBigInt or ZodDate")
                    INTERNAL_SERVER_ERROR
                else Ok tt
              else
                throw_TRPCError
                  ("Input parser key: " ++ dquote ++ shapeKey ++ dquote
                   ++ " must be ZodString")
                  INTERNAL_SERVER_ERROR
            else Ok tt) ;;
      shapeSchema <- (if instanceofZodTypeOptional shapeSchema then
                        if isPathParameter then
                          throw_TRPCError
                            ("Path parameter: " ++ dquote ++ shapeKey ++ dquote
                             ++ " must not be optional")
                            INTERNAL_SERVER_ERROR
                        else
                          match z.unwrap shapeSchema with
                          | Some inner => Ok inner
                          | None => Throw TypeError
                          end
                      else Ok shapeSchema) ;;
      Ok {| Param.name := shapeKey;
            Param.paramType := if isPathParameter then Param_path else Param_query;
            Param.required := isPathParameter || (isRequired && isShapeRequired);
            Param.schema := shapeSchema |}
  end.

(** The callback of [.reduce]: the accumulator is the pair [{ path, query }]. *)
Definition reduceParameter (acc : ZodRawShape * ZodRawShape) (p : Param.t)
    : ZodRawShape * ZodRawShape :=
  let '(path, query) := acc in
  let node := if Param.required p then Param.schema p
              else z.optional (Param.schema p) in
  match Param.paramType p with
  | Param_path => (obj_set path (Param.name p) node, query)
  | Param_query => (path, obj_set query (Param.name p) node)
  end.

(** The chain [shapeKeys.filter(...).map(...)] of [getParameterObjects]. *)
Definition deriveParameters (isRequired : bool) (shape : ZodRawShape)
    (pathParameters : list string) (inType : InType) : Result (list Param.t) :=
  mapM (mapShapeKey isRequired shape pathParameters)
       (filter (filterShapeKey pathParameters inType) (Object_keys shape)).

Definition getParameterObjects (schema : unknown) (pathParameters : list string)
    (headersSchema : option AnyZodObject) (inType : InType)
    : Result (option ZodOpenApiParameters.t) :=
  match asZodType schema with
  | None => throw_TRPCError "Input parser expects a Zod validator" INTERNAL_SERVER_ERROR
  | Some schema =>
      let isRequired := negb (isOptional schema) in
      let unwrappedSchema := unwrapZodType schema true in
      if Nat.eqb (List.length pathParameters) 0 && instanceofZodTypeLikeVoid unwrappedSchema then
        Ok None
      else if negb (instanceofZodTypeObject unwrappedSchema) then
        throw_TRPCError "Input parser must be a ZodObject" INTERNAL_SERVER_ERROR
      else
        match z.shape unwrappedSchema with
        | None => Throw TypeError
        | Some shape =>
            let shapeKeys := Object_keys shape in
            _ <- for_of pathParameters (fun pathParameter =>
                   if negb (includes shapeKeys pathParameter) then
                     throw_TRPCError
                       ("Input parser expects key from path: " ++ dquote
                        ++ pathParameter ++ dquote)
                       INTERNAL_SERVER_ERROR
                   else Ok tt) ;;
            parameters <- deriveParameters isRequired shape pathParameters inType ;;
            let '(path, query) := fold_left reduceParameter parameters ([], []) in
            Ok (Some {| ZodOpenApiParameters.header := headersSchema;
                        ZodOpenApiParameters.path := z.object path;
                        ZodOpenApiParameters.query := z.object query |})
        end
  end.

Definition getRequestBodyObject (schema : unknown) (pathParameters : list string)
    (contentTypes : list OpenApiContentType)
    : Result (option ZodOpenApiRequestBodyObject.t) :=
  match asZodType schema with
  | None => throw_TRPCError "Input parser expects a Zod validator" INTERNAL_SERVER_ERROR
  | Some schema =>
      let isRequired := negb (isOptional schema) in
      let unwrappedSchema := unwrapZodType schema true in
      if Nat.eqb (List.length pathParameters) 0 && instanceofZodTypeLikeVoid unwrappedSchema then
        Ok None
      else if negb (instanceofZodTypeObject unwrappedSchema) then
        throw_TRPCError "Input parser must be a ZodObject" INTERNAL_SERVER_ERROR
      else
        (* remove path parameters *)
        let mask := fold_left (fun mask pathParameter => obj_set mask pathParameter true)
                              pathParameters [] in
        match z.omit mask unwrappedSchema with
        | None => Throw TypeError
        | Some dedupedSchema =>
            match z.shape dedupedSchema with
            | None => Throw TypeError
            | Some dedupedShape =>
                (* if all keys are path parameters *)
                if Nat.ltb 0 (List.length pathParameters)
                   && Nat.eqb (List.length (Object_keys dedupedShape)) 0 then
                  Ok None
                else
                  let content :=
                    fold_left (fun content contentType =>
                                 obj_set content contentType
                                   {| ZodOpenApiMediaTypeObject.schema :=
                                        ZodSchema dedupedSchema |})
                              contentTypes [] in
                  Ok (Some {| ZodOpenApiRequestBodyObject.required := isRequired;
                              ZodOpenApiRequestBodyObject.content := content |})
            end
        end
  end.

Definition errorResponseObject : ZodOpenApiResponseObject.t :=
  {| ZodOpenApiResponseObject.description := "Error response";
     ZodOpenApiResponseObject.headers := None;
     ZodOpenApiResponseObject.content :=
       [("application/json",
         {| ZodOpenApiMediaTypeObject.schema :=
              ZodSchema
                (z.openapi
                   {| Metadata.description := Some "The error information";
                      Metadata.example := None;
                      Metadata.ref := Some "Error";
                      Metadata.title := Some "Error" |}
                   (z.object
                      [("message",
                        z.openapi
                          {| Metadata.description := Some "The error message";
                             Metadata.example := Some (JsonString "Internal server error");
                             Metadata.ref := None;
                             Metadata.title := None |}
                          z.string);
                       ("code",
                        z.openapi
                          {| Metadata.description := Some "The error code";
                             Metadata.example := Some (JsonString "INTERNAL_SERVER_ERROR");
                             Metadata.ref := None;
                             Metadata.title := None |}
                          z.string);
                       ("issues",
                        z.openapi
                          {| Metadata.description :=
                               Some "An array of issues that were responsible for the error";
                             Metadata.example := Some (JsonArray []);
                             Metadata.ref := None;
                             Metadata.title := None |}
                          (z.optional (z.array (z.object [("message", z.string)]))))])) |})] |}.

Definition getResponsesObject (schema : unknown) (headers : option AnyZodObject)
    : Result ZodOpenApiResponsesObject :=
  match asZodType schema with
  | None => throw_TRPCError "Output parser expects a Zod validator" INTERNAL_SERVER_ERROR
  | Some schema =>
      let successResponseObject :=
        {| ZodOpenApiResponseObject.description := "Successful response";
           ZodOpenApiResponseObject.headers := headers;
           ZodOpenApiResponseObject.content :=
             [("application/json",
               {| ZodOpenApiMediaTypeObject.schema :=
                    if instanceofZodTypeKind schema ZodVoid then
                      PlainSchema EmptySchema
                    else if instanceofZodTypeKind schema ZodNever
                            || instanceofZodTypeKind schema ZodUndefined then
                      PlainSchema (NotSchema EmptySchema)
                    else ZodSchema schema |})] |} in
      Ok [("200", successResponseObject); ("default", errorResponseObject)]
  end.

(** * Properties *)

(** ** Tables and arrays *)

Lemma includes_In (l : list string) (x : string) :
  includes l x = true <-> In x l.
Proof.
  unfold includes. rewrite existsb_exists. split.
  - intros [y [Hy Heq]]. apply String.eqb_eq in Heq. now subst.
  - intros H. exists x. split; [assumption | apply String.eqb_refl].
Qed.

Lemma includes_false (l : list string) (x : string) :
  includes l x = false <-> ~ In x l.
Proof.
  rewrite <- includes_In. destruct (includes l x); split; congruence.
Qed.

Section JsObjectFacts.
Variable V : Type.
Implicit Types (o : JsObject V) (k : string) (v : V).

Lemma obj_get_In_keys o k v : obj_get o k = Some v -> In k (Object_keys o).
Proof.
  induction o as [|[k' v'] o IH]; simpl; [discriminate|].
  destruct (String.eqb_spec k' k); intros H; [now left | right; auto].
Qed.


Lemma obj_get_of_key o k : In k (Object_keys o) -> exists v, obj_get o k = Some v.
Proof.
  induction o as [|[k' v'] o IH]; simpl; [tauto|].
  destruct (String.eqb_spec k' k); intros H.
  - eauto.
  - destruct H; [contradiction | auto].
Qed.

Lemma obj_get_set_same o k v : obj_get (obj_set o k v) k = Some v.
Proof.
  induction o as [|[k' v'] o IH]; simpl.
  - now rewrite String.eqb_refl.
  - destruct (String.eqb_spec k' k) as [->|Hne]; simpl.
    + now rewrite String.eqb_refl.
    + apply String.eqb_neq in Hne. now rewrite Hne.
Qed.

Lemma obj_get_set_other o k k' v :
  k <> k' -> obj_get (obj_set o k v) k' = obj_get o k'.
Proof.
  intros Hne. induction o as [|[k0 v0] o IH]; simpl.
  - apply String.eqb_neq in Hne. now rewrite Hne.
  - destruct (String.eqb_spec k0 k) as [->|Hk]; simpl.
    + apply String.eqb_neq in Hne. now rewrite Hne.
    + now rewrite IH.
Qed.

Lemma obj_keys_set o k v k' :
  In k' (Object_keys (obj_set o k v)) <-> k' = k \/ In k' (Object_keys o).
Proof.
  induction o as [|[k0 v0] o IH]; simpl.
  - intuition congruence.
  - destruct (String.eqb_spec k0 k) as [->|Hk]; simpl.
    + intuition congruence.
    + rewrite IH. intuition congruence.
Qed.

End JsObjectFacts.

(** ** Loops that may throw *)

Section Loops.
Variables A B : Type.
Variable f : A -> Result B.

Lemma mapM_Ok_In (l : list A) (bs : list B) :
  mapM f l = Ok bs ->
  (forall b, In b bs -> exists a, In a l /\ f a = Ok b) /\
  (forall a, In a l -> exists b, In b bs /\ f a = Ok b).
Proof.
  revert bs. induction l as [|a l IH]; simpl; intros bs H.
  - inversion H; subst. split; intros ? [].
  - destruct (f a) as [b|e] eqn:Hfa; simpl in H; [|discriminate].
    destruct (mapM f l) as [bs'|e] eqn:Hm; simpl in H; [|discriminate].
    inversion H; subst. destruct (IH bs' eq_refl) as [IH1 IH2]. split.
    + intros b0 [<-|Hin]; [exists a; auto|].
      destruct (IH1 _ Hin) as [a0 [? ?]]. exists a0; auto.
    + intros a0 [<-|Hin]; [exists b; simpl; auto|].
      destruct (IH2 _ Hin) as [b0 [? ?]]. exists b0; simpl; auto.
Qed.

Lemma mapM_Throw_first (l1 l2 : list A) (a : A) (e : Exception) :
  (forall a', In a' l1 -> exists b, f a' = Ok b) ->
  f a = Throw e ->
  mapM f (l1 ++ a :: l2) = Throw e.
Proof.
  intros Hok Ha. induction l1 as [|a1 l1 IH]; simpl.
  - now rewrite Ha.
  - destruct (Hok a1 (or_introl eq_refl)) as [b ->]. simpl.
    rewrite IH; [reflexivity|]. intros a' Hin. apply Hok. now right.
Qed.

Lemma mapM_Throw_inv (l : list A) (e : Exception) :
  mapM f l = Throw e ->
  exists l1 a l2,
    l = l1 ++ a :: l2 /\ (forall a', In a' l1 -> exists b, f a' = Ok b) /\ f a = Throw e.
Proof.
  induction l as [|a l IH]; simpl; [discriminate|].
  destruct (f a) as [b|e'] eqn:Hfa; simpl.
  - destruct (mapM f l) as [bs|e'] eqn:Hm; simpl; [discriminate|].
    intros H; inversion H; subst.
    destruct (IH eq_refl) as (l1 & a0 & l2 & -> & Hok & Ha0).
    exists (a :: l1), a0, l2. repeat split; auto.
    intros a' [<-|Hin]; eauto.
  - intros H; inversion H; subst.
    exists [], a, l. repeat split; auto. intros ? [].
Qed.

Lemma mapM_some_Throw (l : list A) (a : A) (e : Exception) :
  In a l -> f a = Throw e -> exists e', mapM f l = Throw e'.
Proof.
  intros Hin Ha. destruct (mapM f l) as [bs|e'] eqn:Hm; [|eauto].
  destruct (mapM_Ok_In _ Hm) as [_ H2]. destruct (H2 a Hin) as [b [_ Hb]]. congruence.
Qed.

End Loops.

Lemma for_of_Ok {A} (l : list A) (body : A -> Result unit) :
  (forall a, In a l -> body a = Ok tt) -> for_of l body = Ok tt.
Proof.
  induction l as [|a l IH]; simpl; intros H; [reflexivity|].
  rewrite (H a (or_introl eq_refl)). simpl. apply IH. intros; apply H; now right.
Qed.

Lemma for_of_Ok_inv {A} (l : list A) (body : A -> Result unit) (u : unit) :
  for_of l body = Ok u -> forall a, In a l -> exists u', body a = Ok u'.
Proof.
  induction l as [|a l IH]; simpl; intros H a0 Hin; [contradiction|].
  destruct (body a) as [u'|e] eqn:Hb; simpl in H; [|discriminate].
  destruct Hin as [<-|Hin]; eauto.
Qed.

Lemma for_of_Throw_inv {A} (l : list A) (body : A -> Result unit) (e : Exception) :
  for_of l body = Throw e -> exists a, In a l /\ body a = Throw e.
Proof.
  induction l as [|a l IH]; simpl; [discriminate|].
  destruct (body a) as [u'|e'] eqn:Hb; simpl; intros H.
  - destruct (IH H) as [a0 [? ?]]. exists a0; auto.
  - inversion H; subst. exists a; auto.
Qed.

(** ** The classifier *)

Lemma unwrapZodType_true_not_wrapper (type : ZodType) :
  ~ isWrapper (unwrapZodType type true).
Proof.
  induction type using ZodType_wrapper_ind; simpl; try assumption.
  destruct type as [[] m]; simpl in *; unfold isWrapper; simpl; tauto.
Qed.

Lemma unwrapZodType_not_wrapper (type : ZodType) (b : bool) :
  ~ isWrapper type -> unwrapZodType type b = type.
Proof.
  destruct type as [[] m]; unfold isWrapper; simpl; tauto.
Qed.

Lemma unwrapZodType_idempotent (type : ZodType) (b : bool) :
  unwrapZodType (unwrapZodType type true) b = unwrapZodType type true.
Proof.
  apply unwrapZodType_not_wrapper, unwrapZodType_true_not_wrapper.
Qed.

Lemma instanceofZodTypeObject_shape (type : ZodType) :
  instanceofZodTypeObject (unwrapZodType type true) = true ->
  exists s m, unwrapZodType type true = Zod (ObjectDef s) m.
Proof.
  unfold instanceofZodTypeObject. rewrite unwrapZodType_idempotent.
  destruct (unwrapZodType type true) as [[] m]; try discriminate. eauto.
Qed.

Lemma shape_unwrapped (type : ZodType) (s : ZodRawShape) :
  z.shape (unwrapZodType type true) = Some s ->
  exists m, unwrapZodType type true = Zod (ObjectDef s) m.
Proof.
  destruct (unwrapZodType type true) as [[] m]; try discriminate.
  unfold z.shape; simpl. intros H; inversion H; subst. eauto.
Qed.

Lemma object_unwrapped_guards (type : ZodType) (s : ZodRawShape) (m : option Metadata.t) :
  unwrapZodType type true = Zod (ObjectDef s) m ->
  instanceofZodTypeLikeVoid (unwrapZodType type true) = false /\
  instanceofZodTypeObject (unwrapZodType type true) = true.
Proof.
  intros H. unfold instanceofZodTypeObject. rewrite unwrapZodType_idempotent, H.
  split; reflexivity.
Qed.

(** ** The parameter deriver, field by field *)

Lemma unwrap_optional (node : ZodType) :
  instanceofZodTypeOptional node = true -> exists inner, z.unwrap node = Some inner.
Proof.
  destruct node as [[] m]; try discriminate. unfold z.unwrap; simpl; eauto.
Qed.

Lemma mapShapeKey_Ok isRequired shape pathParameters shapeKey p :
  mapShapeKey isRequired shape pathParameters shapeKey = Ok p ->
  exists node,
    obj_get shape shapeKey = Some node /\
    (instanceofZodTypeLikeString node = true \/ instanceofZodTypeCoercible node = true) /\
    (if instanceofZodTypeOptional node
     then includes pathParameters shapeKey = false /\ z.unwrap node = Some (Param.schema p)
     else Param.schema p = node) /\
    Param.name p = shapeKey /\
    Param.paramType p = (if includes pathParameters shapeKey then Param_path else Param_query) /\
    Param.required p =
      (includes pathParameters shapeKey || (isRequired && negb (isOptional node))).
Proof.
  unfold mapShapeKey.
  destruct (obj_get shape shapeKey) as [node|]; [|discriminate].
  intros H. exists node. split; [reflexivity|].
  destruct (instanceofZodTypeLikeString node) eqn:Hs; simpl in H.
  - destruct (instanceofZodTypeOptional node) eqn:Ho.
    + destruct (includes pathParameters shapeKey) eqn:Hp; [discriminate|].
      destruct (z.unwrap node) as [inner|]; [|discriminate].
      simpl in H. inversion H; subst; simpl. auto 10.
    + simpl in H. inversion H; subst; simpl. auto 10.
  - destruct zodSupportsCoerce eqn:Hc; [|discriminate].
    destruct (instanceofZodTypeCoercible node) eqn:Hco; [|discriminate].
    simpl in H.
    destruct (instanceofZodTypeOptional node) eqn:Ho.
    + destruct (includes pathParameters shapeKey) eqn:Hp; [discriminate|].
      destruct (z.unwrap node) as [inner|]; [|discriminate].
      simpl in H. inversion H; subst; simpl. auto 10.
    + simpl in H. inversion H; subst; simpl. auto 10.
Qed.


Lemma mapShapeKey_unsupported isRequired shape pathParameters shapeKey node :
  obj_get shape shapeKey = Some node ->
  instanceofZodTypeLikeString node = false ->
  instanceofZodTypeCoercible node = false ->
  mapShapeKey isRequired shape pathParameters shapeKey =
    throw_TRPCError
      ("Input parser key: " ++ dquote ++ shapeKey ++ dquote
       ++ (if zodSupportsCoerce
           then " must be ZodString, ZodNumber, ZodBoolean, ZodBigInt or ZodDate"
           else " must be ZodString"))
      INTERNAL_SERVER_ERROR.
Proof.
  intros Hget Hs Hc. unfold mapShapeKey. rewrite Hget, Hs. simpl.
  destruct zodSupportsCoerce eqn:Hz; [rewrite Hc|]; reflexivity.
Qed.

Lemma mapShapeKey_optional_path isRequired shape pathParameters shapeKey node :
  obj_get shape shapeKey = Some node ->
  instanceofZodTypeLikeString node = true \/ instanceofZodTypeCoercible node = true ->
  instanceofZodTypeOptional node = true ->
  includes pathParameters shapeKey = true ->
  mapShapeKey isRequired shape pathParameters shapeKey =
    throw_TRPCError
      ("Path parameter: " ++ dquote ++ shapeKey ++ dquote ++ " must not be optional")
      INTERNAL_SERVER_ERROR.
Proof.
  intros Hget Hok Ho Hp. unfold mapShapeKey. rewrite Hget, Ho, Hp.
  destruct (instanceofZodTypeLikeString node) eqn:Hs; simpl; [reflexivity|].
  destruct Hok as [Hok|Hok]; [discriminate|].
  assert (Hz : zodSupportsCoerce = true).
  { unfold instanceofZodTypeCoercible in Hok. now apply andb_true_iff in Hok. }
  rewrite Hz in *. rewrite Hok. reflexivity.
Qed.

(** Every field of the shape that is rejected is rejected by a [TRPCError]
    with the code [INTERNAL_SERVER_ERROR]. *)
Lemma mapShapeKey_Throw isRequired shape pathParameters shapeKey node e :
  obj_get shape shapeKey = Some node ->
  mapShapeKey isRequired shape pathParameters shapeKey = Throw e ->
  exists err, e = TRPC err /\ TRPCError.code err = INTERNAL_SERVER_ERROR.
Proof.
  intros Hget. unfold mapShapeKey. rewrite Hget.
  destruct (instanceofZodTypeLikeString node); simpl;
    [|destruct zodSupportsCoerce;
      [destruct (instanceofZodTypeCoercible node); simpl|]];
    try (intros H; inversion H; subst; eexists; split; reflexivity).
  all: destruct (instanceofZodTypeOptional node) eqn:Ho;
    [destruct (includes pathParameters shapeKey);
     [intros H; inversion H; subst; eexists; split; reflexivity|]
    |simpl; discriminate].
  all: destruct (unwrap_optional _ Ho) as [inner ->]; simpl; discriminate.
Qed.

(** An optional-wrapped path parameter is always rejected, by one of the
    two checks. *)
Lemma mapShapeKey_rejects_optional_path isRequired shape pathParameters shapeKey node :
  obj_get shape shapeKey = Some node ->
  instanceofZodTypeOptional node = true ->
  includes pathParameters shapeKey = true ->
  exists e, mapShapeKey isRequired shape pathParameters shapeKey = Throw e.
Proof.
  intros Hget Ho Hp.
  destruct (instanceofZodTypeLikeString node) eqn:Hs.
  - erewrite mapShapeKey_optional_path; eauto. unfold throw_TRPCError; eauto.
  - destruct (instanceofZodTypeCoercible node) eqn:Hc.
    + erewrite mapShapeKey_optional_path; eauto. unfold throw_TRPCError; eauto.
    + erewrite mapShapeKey_unsupported; eauto. unfold throw_TRPCError; eauto.
Qed.

(** ** The [.reduce] over the derived parameters *)

Lemma coherent_tail p ps : coherent (p :: ps) -> coherent ps.
Proof. intros H a b Ha Hb. apply H; now right. Qed.

Lemma reduce_keys ps path query path' query' :
  fold_left reduceParameter ps (path, query) = (path', query') ->
  forall k,
    (In k (Object_keys path') <->
     In k (Object_keys path) \/
     exists p, In p ps /\ Param.name p = k /\ Param.paramType p = Param_path) /\
    (In k (Object_keys query') <->
     In k (Object_keys query) \/
     exists p, In p ps /\ Param.name p = k /\ Param.paramType p = Param_query).
Proof.
  revert path query. induction ps as [|p ps IH]; simpl; intros path query H k.
  - inversion H; subst. split; split; auto; intros [?|[? [[] _]]]; auto.
  - unfold reduceParameter in H at 1.
    destruct (Param.paramType p) eqn:Hp;
      destruct (IH _ _ H k) as [IH1 IH2]; rewrite IH1, IH2; clear IH IH1 IH2 H;
      rewrite ?obj_keys_set.
    all: split; split; intros HH.
    all: repeat match goal with
           | H : _ \/ _ |- _ => destruct H
           | H : exists _, _ |- _ => destruct H as [? [? [? ?]]]
           end; subst; eauto 8; try congruence.
Qed.

Lemma reduce_frame ps path query path' query' k :
  fold_left reduceParameter ps (path, query) = (path', query') ->
  (forall q, In q ps -> Param.name q <> k) ->
  obj_get path' k = obj_get path k /\ obj_get query' k = obj_get query k.
Proof.
  revert path query. induction ps as [|p ps IH]; simpl; intros path query H Hk.
  - inversion H; subst. auto.
  - unfold reduceParameter in H at 1.
    assert (Hp : Param.name p <> k) by (apply Hk; now left).
    destruct (Param.paramType p); destruct (IH _ _ H) as [-> ->]; auto;
      rewrite ?obj_get_set_other by assumption; auto.
Qed.

Lemma reduce_get ps path query path' query' :
  coherent ps ->
  fold_left reduceParameter ps (path, query) = (path', query') ->
  forall p, In p ps ->
    obj_get match Param.paramType p with Param_path => path' | Param_query => query' end
            (Param.name p)
    = Some (if Param.required p then Param.schema p else z.optional (Param.schema p)).
Proof.
  revert path query. induction ps as [|p0 ps IH]; intros path query Hco H p Hin.
  - contradiction.
  - cbn [fold_left] in H. simpl in Hin.
    destruct (reduceParameter (path, query) p0) as [path1 query1] eqn:Hred.
    assert (Htail : coherent ps) by (eapply coherent_tail; eauto).
    destruct (existsb (fun q => String.eqb (Param.name q) (Param.name p)) ps) eqn:Hex.
    + apply existsb_exists in Hex. destruct Hex as [q [Hq Hname]].
      apply String.eqb_eq in Hname.
      assert (Hqp : q = p) by (apply Hco; simpl; auto).
      rewrite Hqp in Hq. exact (IH _ _ Htail H p Hq).
    + destruct Hin as [Heq|Hin]; [|exact (IH _ _ Htail H p Hin)].
      subst p0.
      assert (Hfresh : forall q, In q ps -> Param.name q <> Param.name p).
      { intros q Hq Heq. apply String.eqb_eq in Heq.
        assert (existsb (fun q => String.eqb (Param.name q) (Param.name p)) ps = true)
          by (apply existsb_exists; eauto).
        congruence. }
      destruct (reduce_frame _ _ _ H Hfresh) as [H1 H2].
      unfold reduceParameter in Hred.
      destruct (Param.paramType p); inversion Hred; subst;
        [rewrite H1 | rewrite H2]; apply obj_get_set_same.
Qed.

(** The parameters of one call are coherent: each is the image of its name. *)
Lemma deriveParameters_Ok isRequired shape pathParameters inType ps :
  deriveParameters isRequired shape pathParameters inType = Ok ps ->
  coherent ps /\
  (forall p, In p ps ->
     In (Param.name p) (Object_keys shape) /\
     filterShapeKey pathParameters inType (Param.name p) = true /\
     mapShapeKey isRequired shape pathParameters (Param.name p) = Ok p) /\
  (forall key, In key (Object_keys shape) ->
     filterShapeKey pathParameters inType key = true ->
     exists p, In p ps /\ Param.name p = key).
Proof.
  unfold deriveParameters. intros H.
  destruct (mapM_Ok_In _ _ H) as [H1 H2].
  assert (Hps : forall p, In p ps ->
     In (Param.name p) (Object_keys shape) /\
     filterShapeKey pathParameters inType (Param.name p) = true /\
     mapShapeKey isRequired shape pathParameters (Param.name p) = Ok p).
  { intros p Hp. destruct (H1 _ Hp) as [key [Hkey Hmap]].
    apply filter_In in Hkey.
    destruct (mapShapeKey_Ok _ _ _ _ Hmap) as (node & _ & _ & _ & Hname & _).
    rewrite Hname. tauto. }
  split; [|split; [exact Hps|]].
  - intros p q Hp Hq Heq.
    destruct (Hps _ Hp) as (_ & _ & Ep). destruct (Hps _ Hq) as (_ & _ & Eq).
    rewrite Heq in Ep. congruence.
  - intros key Hkey Hsel.
    destruct (H2 key) as [p [Hp Hmap]]; [apply filter_In; auto|].
    exists p. split; [assumption|].
    now destruct (mapShapeKey_Ok _ _ _ _ Hmap) as (node & _ & _ & _ & Hname & _).
Qed.

(** ** The parameter deriver as a whole *)

(** On a schema that unwraps to an object the deriver is the chain of the
    path-parameter check, the derivation of the fields and the partition. *)
Lemma getParameterObjects_object schema shape pathParameters headersSchema inType :
  z.shape (unwrapZodType schema true) = Some shape ->
  getParameterObjects (IsZodType schema) pathParameters headersSchema inType =
    (_ <- for_of pathParameters (fun pathParameter =>
            if negb (includes (Object_keys shape) pathParameter) then
              throw_TRPCError
                ("Input parser expects key from path: " ++ dquote
                 ++ pathParameter ++ dquote)
                INTERNAL_SERVER_ERROR
            else Ok tt) ;;
     parameters <- deriveParameters (negb (isOptional schema)) shape pathParameters inType ;;
     let '(path, query) := fold_left reduceParameter parameters ([], []) in
     Ok (Some {| ZodOpenApiParameters.header := headersSchema;
                 ZodOpenApiParameters.path := z.object path;
                 ZodOpenApiParameters.query := z.object query |})).
Proof.
  intros Hshape. destruct (shape_unwrapped _ Hshape) as [m Hu].
  destruct (object_unwrapped_guards _ Hu) as [Hvoid Hobj].
  unfold getParameterObjects. simpl.
  rewrite Hvoid, Hobj, Hshape, andb_false_r. reflexivity.
Qed.

Lemma getParameterObjects_Some schema pathParameters headersSchema inType r :
  getParameterObjects (IsZodType schema) pathParameters headersSchema inType = Ok (Some r) ->
  exists shape ps path query,
    z.shape (unwrapZodType schema true) = Some shape /\
    (forall name, In name pathParameters -> In name (Object_keys shape)) /\
    deriveParameters (negb (isOptional schema)) shape pathParameters inType = Ok ps /\
    fold_left reduceParameter ps ([], []) = (path, query) /\
    r = {| ZodOpenApiParameters.header := headersSchema;
           ZodOpenApiParameters.path := z.object path;
           ZodOpenApiParameters.query := z.object query |}.
Proof.
  intros H.
  assert (Hobj : instanceofZodTypeObject (unwrapZodType schema true) = true).
  { unfold getParameterObjects in H. simpl in H.
    destruct (Nat.eqb (List.length pathParameters) 0
              && instanceofZodTypeLikeVoid (unwrapZodType schema true)); [discriminate|].
    destruct (instanceofZodTypeObject (unwrapZodType schema true)); [reflexivity|discriminate]. }
  destruct (instanceofZodTypeObject_shape _ Hobj) as (shape & m & Hu).
  assert (Hshape : z.shape (unwrapZodType schema true) = Some shape) by now rewrite Hu.
  rewrite (getParameterObjects_object _ _ _ _ Hshape) in H.
  destruct (for_of pathParameters _) as [u|e] eqn:Hfor; simpl in H; [|discriminate].
  destruct (deriveParameters _ shape pathParameters inType) as [ps|e] eqn:Hps;
    simpl in H; [|discriminate].
  destruct (fold_left reduceParameter ps ([], [])) as [path query] eqn:Hfold.
  inversion H; subst. exists shape, ps, path, query. repeat split; auto.
  intros name Hin. destruct (for_of_Ok_inv _ _ Hfor _ Hin) as [u' Hbody].
  destruct (includes (Object_keys shape) name) eqn:Hinc; [|discriminate].
  now apply includes_In.
Qed.

(** The deriver never fails with anything but a [TRPCError] whose code is
    [INTERNAL_SERVER_ERROR]: the guarded property reads cannot fail. *)
Lemma getParameterObjects_Throw schema pathParameters headersSchema inType e :
  getParameterObjects schema pathParameters headersSchema inType = Throw e ->
  exists err, e = TRPC err /\ TRPCError.code err = INTERNAL_SERVER_ERROR.
Proof.
  destruct schema as [schema|v]; [|intros H; inversion H; subst; eexists; split; reflexivity].
  intros H.
  destruct (instanceofZodTypeObject (unwrapZodType schema true)) eqn:Hobj.
  - destruct (instanceofZodTypeObject_shape _ Hobj) as (shape & m & Hu).
    assert (Hshape : z.shape (unwrapZodType schema true) = Some shape) by now rewrite Hu.
    rewrite (getParameterObjects_object _ _ _ _ Hshape) in H.
    destruct (for_of pathParameters _) as [u|e'] eqn:Hfor; simpl in H.
    + destruct (deriveParameters _ shape pathParameters inType) as [ps|e'] eqn:Hps; simpl in H.
      * destruct (fold_left reduceParameter ps ([], [])); discriminate.
      * inversion H; subst e'. unfold deriveParameters in Hps.
        destruct (mapM_Throw_inv _ _ Hps) as (l1 & key & l2 & Hl & _ & Hkey).
        assert (Hin : In key (Object_keys shape)).
        { eapply proj1. apply filter_In. rewrite Hl. apply in_elt. }
        destruct (obj_get_of_key _ _ Hin) as [node Hnode].
        eapply mapShapeKey_Throw; eauto.
    + inversion H; subst e'.
      destruct (for_of_Throw_inv _ _ Hfor) as [name [_ Hbody]].
      destruct (negb (includes (Object_keys shape) name)); [|discriminate].
      inversion Hbody; subst. eexists; split; reflexivity.
  - unfold getParameterObjects in H. simpl in H. rewrite Hobj in H. simpl in H.
    destruct (Nat.eqb (List.length pathParameters) 0
              && instanceofZodTypeLikeVoid (unwrapZodType schema true)); [discriminate|].
    inversion H; subst. eexists; split; reflexivity.
Qed.

(** ** C1 *)

(** C1 (as amended): For every input schema that [getParameterObjects]
    accepts as an object, each derived parameter's [required] flag is: a
    path-parameter field is required; a query field is required if and only
    if the top-level schema does not accept an absent value
    ([isRequired = !schema.isOptional()], Zod's own test, which an
    optional-wrapped schema fails and so does, for one, a schema with a
    default) and the field's own node does not accept one either.  The node
    under the parameter's name in the returned [path] or [query] object is
    the field's node, one optional layer removed, wrapped back in an
    optional marker when [required] is false. *)
Theorem getParameterObjects_required schema pathParameters headersSchema inType r :
  getParameterObjects (IsZodType schema) pathParameters headersSchema inType = Ok (Some r) ->
  exists shape ps path query,
    z.shape (unwrapZodType schema true) = Some shape /\
    deriveParameters (negb (isOptional schema)) shape pathParameters inType = Ok ps /\
    ZodOpenApiParameters.path r = z.object path /\
    ZodOpenApiParameters.query r = z.object query /\
    (forall key, In key (Object_keys shape) ->
       filterShapeKey pathParameters inType key = true ->
       exists p, In p ps /\ Param.name p = key) /\
    (forall p, In p ps ->
       exists node,
         obj_get shape (Param.name p) = Some node /\
         (includes pathParameters (Param.name p) = true ->
            Param.paramType p = Param_path /\ Param.required p = true) /\
         (includes pathParameters (Param.name p) = false ->
            Param.paramType p = Param_query /\
            (Param.required p = true <->
             isOptional schema = false /\ isOptional node = false)) /\
         (if instanceofZodTypeOptional node
          then z.unwrap node = Some (Param.schema p)
          else Param.schema p = node) /\
         obj_get match Param.paramType p with Param_path => path | Param_query => query end
                 (Param.name p)
         = Some (if Param.required p then Param.schema p
                 else z.optional (Param.schema p))).
Proof.
  intros H.
  destruct (getParameterObjects_Some _ _ _ _ H)
    as (shape & ps & path & query & Hshape & _ & Hps & Hfold & ->).
  destruct (deriveParameters_Ok _ _ _ _ Hps) as (Hco & Hin & Hall).
  exists shape, ps, path, query. repeat (split; [solve [auto]|]).
  intros p Hp. destruct (Hin _ Hp) as (_ & _ & Hmap).
  destruct (mapShapeKey_Ok _ _ _ _ Hmap) as (node & Hget & _ & Hsch & _ & Hty & Hreq).
  exists node. split; [assumption|]. rewrite Hty, Hreq.
  split; [|split; [|split]].
  - intros ->. auto.
  - intros ->. split; [reflexivity|]. simpl.
    rewrite andb_true_iff, !negb_true_iff. reflexivity.
  - destruct (instanceofZodTypeOptional node); tauto.
  - rewrite <- Hty, <- Hreq. eapply reduce_get; eauto.
Qed.

(** ** C2 *)

(** C2: When every declared path-parameter name is a field of the
    unwrapped input object, a path-parameter field on which the derivation
    succeeds yields an entry of type [path] with [required = true], whatever
    [isOptional()] says of the field's node; the entry's node is the field's
    node itself, and that is the node the returned [path] object holds. *)
Theorem path_parameter_required schema shape pathParameters key node p :
  z.shape (unwrapZodType schema true) = Some shape ->
  (forall name, In name pathParameters -> In name (Object_keys shape)) ->
  In key pathParameters ->
  obj_get shape key = Some node ->
  mapShapeKey (negb (isOptional schema)) shape pathParameters key = Ok p ->
  Param.name p = key /\
  Param.paramType p = Param_path /\
  Param.required p = true /\
  Param.schema p = node /\
  (forall headersSchema inType r,
     filterShapeKey pathParameters inType key = true ->
     getParameterObjects (IsZodType schema) pathParameters headersSchema inType = Ok (Some r) ->
     exists path,
       ZodOpenApiParameters.path r = z.object path /\ obj_get path key = Some node).
Proof.
  intros Hshape Hall Hkey Hget Hmap.
  apply includes_In in Hkey.
  destruct (mapShapeKey_Ok _ _ _ _ Hmap) as (node' & Hget' & _ & Hsch & Hname & Hty & Hreq).
  rewrite Hget in Hget'. inversion Hget'; subst node'. rewrite Hkey in *.
  assert (Hnode : Param.schema p = node).
  { destruct (instanceofZodTypeOptional node); [destruct Hsch; discriminate | assumption]. }
  repeat (split; [solve [auto]|]).
  intros headersSchema inType r Hsel Hcall.
  destruct (getParameterObjects_Some _ _ _ _ Hcall)
    as (shape' & ps & path & query & Hshape' & _ & Hps & Hfold & ->).
  rewrite Hshape in Hshape'. inversion Hshape'; subst shape'.
  destruct (deriveParameters_Ok _ _ _ _ Hps) as (Hco & Hin & Hex).
  destruct (Hex key (obj_get_In_keys shape key Hget) Hsel) as (q & Hq & Hqname).
  destruct (Hin _ Hq) as (_ & _ & Hqmap). rewrite Hqname, Hmap in Hqmap.
  inversion Hqmap; subst q.
  exists path. split; [reflexivity|].
  pose proof (@reduce_get ps [] [] path query Hco Hfold p Hq) as Hr.
  rewrite Hty, Hreq, Hname, Hnode in Hr. exact Hr.
Qed.

(** ** The request body deriver *)

(** A table filled by writing one value under each key of an array. *)
Lemma fold_obj_set_get {V} (v : V) (ks : list string) (o : JsObject V) (k : string) :
  obj_get (fold_left (fun o k => obj_set o k v) ks o) k =
    if includes ks k then Some v else obj_get o k.
Proof.
  revert o. induction ks as [|k0 ks IH]; intros o; simpl; [reflexivity|].
  rewrite IH. destruct (includes ks k) eqn:Hin; [now rewrite orb_true_r|].
  rewrite orb_false_r. destruct (String.eqb_spec k k0) as [->|Hne].
  - apply obj_get_set_same.
  - apply obj_get_set_other. congruence.
Qed.


(** [omit] with the mask of the path parameters keeps the fields whose name
    is not a path parameter, in their order. *)
Lemma omit_pathParameters (pathParameters : list string) (s : ZodRawShape) m :
  z.omit (fold_left (fun mask pathParameter => obj_set mask pathParameter true)
                    pathParameters [])
         (Zod (ObjectDef s) m)
  = Some (Zod (ObjectDef (filter (fun kv => negb (omitted pathParameters (fst kv))) s))
              (option_map Metadata.withoutRef m)).
Proof.
  unfold z.omit. do 3 f_equal. apply filter_ext. intros [k v]. simpl.
  unfold obj_truthy, omitted. rewrite fold_obj_set_get.
  now destruct (includes pathParameters k).
Qed.

Lemma getRequestBodyObject_object schema shape m pathParameters contentTypes :
  unwrapZodType schema true = Zod (ObjectDef shape) m ->
  getRequestBodyObject (IsZodType schema) pathParameters contentTypes =
    let dedupedShape := filter (fun kv => negb (omitted pathParameters (fst kv))) shape in
    if Nat.ltb 0 (List.length pathParameters)
       && Nat.eqb (List.length (Object_keys dedupedShape)) 0
    then Ok None
    else Ok (Some {| ZodOpenApiRequestBodyObject.required := negb (isOptional schema);
                     ZodOpenApiRequestBodyObject.content :=
                       fold_left (fun content contentType =>
                                    obj_set content contentType
                                      {| ZodOpenApiMediaTypeObject.schema :=
                                           ZodSchema
                                             (Zod (ObjectDef dedupedShape)
                                                  (option_map Metadata.withoutRef m)) |})
                                 contentTypes [] |}).
Proof.
  intros Hu. destruct (object_unwrapped_guards _ Hu) as [Hvoid Hobj].
  unfold getRequestBodyObject. simpl.
  rewrite Hvoid, Hobj, andb_false_r. simpl. rewrite Hu, omit_pathParameters.
  reflexivity.
Qed.

Lemma Object_keys_filter {V} (g : string -> bool) (o : JsObject V) :
  Object_keys (filter (fun kv => g (fst kv)) o) = filter g (Object_keys o).
Proof.
  unfold Object_keys. induction o as [|[k v] o IH]; simpl; [reflexivity|].
  destruct (g k); simpl; now rewrite IH.
Qed.


(** ** The fields of the request body *)


(** ** C5 *)

(** C5: For a schema that unwraps to a void-like node and an empty list of
    path parameters, both derivers return [undefined]. *)
Theorem void_input_absent schema headersSchema inType contentTypes :
  instanceofZodTypeLikeVoid (unwrapZodType schema true) = true ->
  getParameterObjects (IsZodType schema) [] headersSchema inType = Ok None /\
  getRequestBodyObject (IsZodType schema) [] contentTypes = Ok None.
Proof.
  intros Hvoid. unfold getParameterObjects, getRequestBodyObject. simpl.
  rewrite Hvoid. split; reflexivity.
Qed.

(** ** C10 *)

(** C10: [getRequestBodyObject] fails only with the "expects a Zod
    validator" or the "must be a ZodObject" error; on every validator node
    that unwraps to an object it returns a result, whatever the nodes of the
    fields are and whether or not the path-parameter names are fields of
    the object. *)
Theorem getRequestBodyObject_failures schema pathParameters contentTypes :
  (forall e,
     getRequestBodyObject schema pathParameters contentTypes = Throw e ->
     e = TRPC {| TRPCError.message := "Input parser expects a Zod validator";
                 TRPCError.code := "INTERNAL_SERVER_ERROR" |} \/
     e = TRPC {| TRPCError.message := "Input parser must be a ZodObject";
                 TRPCError.code := "INTERNAL_SERVER_ERROR" |}) /\
  (forall type,
     schema = IsZodType type ->
     instanceofZodTypeObject (unwrapZodType type true) = true ->
     exists body, getRequestBodyObject schema pathParameters contentTypes = Ok body).
Proof.
  split.
  - intros e H. destruct schema as [type|v]; [|inversion H; auto].
    destruct (instanceofZodTypeObject (unwrapZodType type true)) eqn:Hobj.
    + destruct (instanceofZodTypeObject_shape _ Hobj) as (shape & m & Hu).
      erewrite getRequestBodyObject_object in H by exact Hu. cbv zeta in H.
      destruct (_ && _) in H; discriminate.
    + unfold getRequestBodyObject in H. simpl in H. rewrite Hobj in H. simpl in H.
      destruct (_ && _) in H; [discriminate|]. inversion H; auto.
  - intros type -> Hobj.
    destruct (instanceofZodTypeObject_shape _ Hobj) as (shape & m & Hu).
    erewrite getRequestBodyObject_object by exact Hu. cbv zeta.
    destruct (_ && _); eauto.
Qed.

(** ** Rejected fields *)

(** The first selected field that is rejected decides the error of the call. *)
Lemma getParameterObjects_first_rejected
    schema shape pathParameters headersSchema inType before key after e :
  z.shape (unwrapZodType schema true) = Some shape ->
  (forall name, In name pathParameters -> In name (Object_keys shape)) ->
  filter (filterShapeKey pathParameters inType) (Object_keys shape) = before ++ key :: after ->
  (forall k, In k before ->
     exists p, mapShapeKey (negb (isOptional schema)) shape pathParameters k = Ok p) ->
  mapShapeKey (negb (isOptional schema)) shape pathParameters key = Throw e ->
  getParameterObjects (IsZodType schema) pathParameters headersSchema inType = Throw e.
Proof.
  intros Hshape Hall Hsel Hbefore Hkey.
  rewrite (getParameterObjects_object _ _ _ _ Hshape).
  rewrite for_of_Ok.
  - simpl. unfold deriveParameters. rewrite Hsel.
    erewrite mapM_Throw_first; [reflexivity | exact Hbefore | exact Hkey].
  - intros name Hin. apply Hall, includes_In in Hin. now rewrite Hin.
Qed.

(** A selected field that is rejected makes the call fail. *)
Lemma getParameterObjects_some_rejected
    schema shape pathParameters headersSchema inType key e :
  z.shape (unwrapZodType schema true) = Some shape ->
  In key (Object_keys shape) ->
  filterShapeKey pathParameters inType key = true ->
  mapShapeKey (negb (isOptional schema)) shape pathParameters key = Throw e ->
  exists err,
    getParameterObjects (IsZodType schema) pathParameters headersSchema inType
    = Throw (TRPC err) /\
    TRPCError.code err = INTERNAL_SERVER_ERROR.
Proof.
  intros Hshape Hin Hsel Hkey.
  assert (Hthrows : exists e',
    getParameterObjects (IsZodType schema) pathParameters headersSchema inType = Throw e').
  { rewrite (getParameterObjects_object _ _ _ _ Hshape).
    destruct (for_of pathParameters _) as [u|e']; simpl; [|eauto].
    unfold deriveParameters.
    destruct (@mapM_some_Throw _ _
                (mapShapeKey (negb (isOptional schema)) shape pathParameters)
                (filter (filterShapeKey pathParameters inType) (Object_keys shape))
                key e) as [e' ->]; [apply filter_In; auto | assumption | simpl; eauto]. }
  destruct Hthrows as [e' He'].
  destruct (getParameterObjects_Throw _ _ _ _ He') as (err & -> & Hcode). eauto.
Qed.

(** ** C6 *)

(** C6 (as amended): In [getParameterObjects], the derivation of a field
    selected by the scope filter whose node is neither string-like nor
    coercible raises a [TRPCError] of code [INTERNAL_SERVER_ERROR]; its
    message is the "must be ZodString" variant when [zodSupportsCoerce] is
    false and the "must be ZodString, ZodNumber, ZodBoolean, ZodBigInt or
    ZodDate" variant when it is true.  The call as a whole throws a
    [TRPCError] of that code, and it throws this very error when every
    declared path parameter is a field of the object and no selected field
    before this one is rejected. *)
Theorem unsupported_field_type
    schema shape pathParameters headersSchema inType key node :
  z.shape (unwrapZodType schema true) = Some shape ->
  obj_get shape key = Some node ->
  filterShapeKey pathParameters inType key = true ->
  instanceofZodTypeLikeString node = false ->
  instanceofZodTypeCoercible node = false ->
  let err :=
    {| TRPCError.message :=
         "Input parser key: " ++ dquote ++ key ++ dquote
         ++ (if zodSupportsCoerce
             then " must be ZodString, ZodNumber, ZodBoolean, ZodBigInt or ZodDate"
             else " must be ZodString");
       TRPCError.code := "INTERNAL_SERVER_ERROR" |} in
  mapShapeKey (negb (isOptional schema)) shape pathParameters key = Throw (TRPC err) /\
  (exists err',
     getParameterObjects (IsZodType schema) pathParameters headersSchema inType
     = Throw (TRPC err') /\
     TRPCError.code err' = "INTERNAL_SERVER_ERROR") /\
  ((forall name, In name pathParameters -> In name (Object_keys shape)) ->
   forall before after,
     filter (filterShapeKey pathParameters inType) (Object_keys shape)
     = before ++ key :: after ->
     (forall k, In k before ->
        exists p, mapShapeKey (negb (isOptional schema)) shape pathParameters k = Ok p) ->
     getParameterObjects (IsZodType schema) pathParameters headersSchema inType
     = Throw (TRPC err)).
Proof.
  intros Hshape Hget Hsel Hs Hc err.
  pose proof (mapShapeKey_unsupported (negb (isOptional schema)) _ pathParameters _ Hget Hs Hc)
    as Hmap.
  split; [exact Hmap|]. split.
  - eapply getParameterObjects_some_rejected; eauto using obj_get_In_keys.
  - intros Hall before after Hfilter Hbefore.
    eapply getParameterObjects_first_rejected; eauto.
Qed.

(** ** C7 *)

(** C7 (as amended): When the scope is [all] or [path], declaring a path
    parameter whose field of the input object is optional-wrapped makes
    [getParameterObjects] throw a [TRPCError] of code
    [INTERNAL_SERVER_ERROR].  The error is the "must not be optional" one
    when every declared path parameter is a field, the field's node is
    string-like or coercible, and no selected field before it is
    rejected. *)
Theorem optional_path_parameter
    schema shape pathParameters headersSchema inType key node :
  z.shape (unwrapZodType schema true) = Some shape ->
  obj_get shape key = Some node ->
  In key pathParameters ->
  instanceofZodTypeOptional node = true ->
  inType <> In_query ->
  (exists err,
     getParameterObjects (IsZodType schema) pathParameters headersSchema inType
     = Throw (TRPC err) /\
     TRPCError.code err = "INTERNAL_SERVER_ERROR") /\
  ((forall name, In name pathParameters -> In name (Object_keys shape)) ->
   instanceofZodTypeLikeString node = true \/ instanceofZodTypeCoercible node = true ->
   forall before after,
     filter (filterShapeKey pathParameters inType) (Object_keys shape)
     = before ++ key :: after ->
     (forall k, In k before ->
        exists p, mapShapeKey (negb (isOptional schema)) shape pathParameters k = Ok p) ->
     getParameterObjects (IsZodType schema) pathParameters headersSchema inType
     = Throw (TRPC {| TRPCError.message :=
                        "Path parameter: " ++ dquote ++ key ++ dquote
                        ++ " must not be optional";
                      TRPCError.code := "INTERNAL_SERVER_ERROR" |})).
Proof.
  intros Hshape Hget Hkey Hopt Hscope. apply includes_In in Hkey.
  assert (Hsel : filterShapeKey pathParameters inType key = true).
  { unfold filterShapeKey. rewrite Hkey. destruct inType; congruence. }
  split.
  - destruct (mapShapeKey_rejects_optional_path
                (negb (isOptional schema)) _ _ _ Hget Hopt Hkey) as [e He].
    eapply getParameterObjects_some_rejected; eauto using obj_get_In_keys.
  - intros Hall Hok before after Hfilter Hbefore.
    eapply getParameterObjects_first_rejected; eauto.
    apply mapShapeKey_optional_path with (node := node); auto.
Qed.

(** ** C9 *)

Lemma getParameterObjects_header schema pathParameters headersSchema inType :
  getParameterObjects schema pathParameters headersSchema inType =
    match getParameterObjects schema pathParameters None inType with
    | Ok (Some r) =>
        Ok (Some {| ZodOpenApiParameters.header := headersSchema;
                    ZodOpenApiParameters.path := ZodOpenApiParameters.path r;
                    ZodOpenApiParameters.query := ZodOpenApiParameters.query r |})
    | other => other
    end.
Proof.
  unfold getParameterObjects.
  destruct (asZodType schema) as [type|]; [|reflexivity].
  destruct (_ && _); [reflexivity|].
  destruct (negb _); [reflexivity|].
  destruct (z.shape _) as [shape|]; [|reflexivity].
  destruct (for_of _ _) as [u|e]; simpl; [|reflexivity].
  destruct (deriveParameters _ _ _ _) as [ps|e]; simpl; [|reflexivity].
  destruct (fold_left _ _ _); reflexivity.
Qed.

(** C9: When [getParameterObjects] returns a result, its [header] is the
    [headersSchema] argument as given.  Whether the call returns or throws,
    the error it throws and the [path] and [query] of its result do not
    depend on [headersSchema]: any two header schemas give the same outcome
    up to the [header] component. *)
Theorem header_opaque schema pathParameters inType headersSchema headersSchema' :
  match getParameterObjects schema pathParameters headersSchema inType,
        getParameterObjects schema pathParameters headersSchema' inType with
  | Ok (Some r), Ok (Some r') =>
      ZodOpenApiParameters.header r = headersSchema /\
      ZodOpenApiParameters.header r' = headersSchema' /\
      ZodOpenApiParameters.path r = ZodOpenApiParameters.path r' /\
      ZodOpenApiParameters.query r = ZodOpenApiParameters.query r'
  | Ok None, Ok None => True
  | Throw e, Throw e' => e = e'
  | _, _ => False
  end.
Proof.
  rewrite (getParameterObjects_header schema pathParameters headersSchema),
          (getParameterObjects_header schema pathParameters headersSchema').
  destruct (getParameterObjects schema pathParameters None inType) as [[r|]|e];
    simpl; auto.
Qed.

(** ** C4 *)

(** C4: For every output schema that is a Zod node, [getResponsesObject]
    returns exactly a [200] entry and a [default] entry.  The schema of the
    [200] entry under [application/json] is [{}] for a void node,
    [{ not: {} }] for a never or an undefined node, and the output schema
    itself otherwise.  The [default] entry is [errorResponseObject], the
    fixed envelope: an object with the reference and title [Error] whose
    fields are the strings [message] and [code] and the optional array
    [issues] of objects with a string [message], each with its description
    and example. *)
Theorem getResponsesObject_entries schema headers :
  getResponsesObject (IsZodType schema) headers =
    Ok [("200",
         {| ZodOpenApiResponseObject.description := "Successful response";
            ZodOpenApiResponseObject.headers := headers;
            ZodOpenApiResponseObject.content :=
              [("application/json",
                {| ZodOpenApiMediaTypeObject.schema :=
                     match typeName schema with
                     | ZodVoid => PlainSchema EmptySchema
                     | ZodNever | ZodUndefined => PlainSchema (NotSchema EmptySchema)
                     | _ => ZodSchema schema
                     end |})] |});
        ("default", errorResponseObject)] /\
  errorResponseObject =
    {| ZodOpenApiResponseObject.description := "Error response";
       ZodOpenApiResponseObject.headers := None;
       ZodOpenApiResponseObject.content :=
         [("application/json",
           {| ZodOpenApiMediaTypeObject.schema :=
                ZodSchema
                  (Zod (ObjectDef
                          [("message",
                            Zod StringDef
                              (Some {| Metadata.description := Some "The error message";
                                       Metadata.example :=
                                         Some (JsonString "Internal server error");
                                       Metadata.ref := None;
                                       Metadata.title := None |}));
                           ("code",
                            Zod StringDef
                              (Some {| Metadata.description := Some "The error code";
                                       Metadata.example :=
                                         Some (JsonString "INTERNAL_SERVER_ERROR");
                                       Metadata.ref := None;
                                       Metadata.title := None |}));
                           ("issues",
                            Zod (OptionalDef
                                   (Zod (ArrayDef
                                           (Zod (ObjectDef
                                                   [("message", Zod StringDef None)])
                                                None))
                                        None))
                              (Some {| Metadata.description :=
                                         Some "An array of issues that were responsible for the error";
                                       Metadata.example := Some (JsonArray []);
                                       Metadata.ref := None;
                                       Metadata.title := None |}))])
                       (Some {| Metadata.description := Some "The error information";
                                Metadata.example := None;
                                Metadata.ref := Some "Error";
                                Metadata.title := Some "Error" |})) |})] |}.
Proof.
  split; [|reflexivity].
  destruct schema as [[] m]; reflexivity.
Qed.

(** ** C8 *)



Lemma parameters_fieldNames schema shape pathParameters headersSchema inType r :
  z.shape (unwrapZodType schema true) = Some shape ->
  getParameterObjects (IsZodType schema) pathParameters headersSchema inType = Ok (Some r) ->
  forall key,
    (In key (fieldNames (ZodOpenApiParameters.path r)) <->
     In key (Object_keys shape) /\ filterShapeKey pathParameters inType key = true
     /\ includes pathParameters key = true) /\
    (In key (fieldNames (ZodOpenApiParameters.query r)) <->
     In key (Object_keys shape) /\ filterShapeKey pathParameters inType key = true
     /\ includes pathParameters key = false).
Proof.
  intros Hshape Hcall key.
  destruct (getParameterObjects_Some _ _ _ _ Hcall)
    as (shape' & ps & path & query & Hshape' & _ & Hps & Hfold & ->).
  rewrite Hshape in Hshape'. inversion Hshape'; subst shape'.
  destruct (deriveParameters_Ok _ _ _ _ Hps) as (_ & Hin & Hex).
  destruct (reduce_keys _ _ _ Hfold key) as [Hpath Hquery].
  unfold fieldNames; simpl. rewrite Hpath, Hquery. simpl.
  assert (Hty : forall p, In p ps ->
            Param.paramType p
            = if includes pathParameters (Param.name p) then Param_path else Param_query).
  { intros p Hp. destruct (Hin _ Hp) as (_ & _ & Hmap).
    now destruct (mapShapeKey_Ok _ _ _ _ Hmap) as (node & _ & _ & _ & _ & Hty & _). }
  split; split.
  - intros [[]|(p & Hp & <- & Hpt)]. destruct (Hin _ Hp) as (? & ? & _).
    rewrite (Hty _ Hp) in Hpt.
    destruct (includes pathParameters (Param.name p)); [auto|discriminate].
  - intros (Hk & Hsel & Hinc). right. destruct (Hex _ Hk Hsel) as (p & Hp & Hname).
    exists p. rewrite (Hty _ Hp), Hname, Hinc. auto.
  - intros [[]|(p & Hp & <- & Hpt)]. destruct (Hin _ Hp) as (? & ? & _).
    rewrite (Hty _ Hp) in Hpt.
    destruct (includes pathParameters (Param.name p)); [discriminate|auto].
  - intros (Hk & Hsel & Hinc). right. destruct (Hex _ Hk Hsel) as (p & Hp & Hname).
    exists p. rewrite (Hty _ Hp), Hname, Hinc. auto.
Qed.

Lemma dedupedShape_keys (pathParameters : list string) (shape : ZodRawShape) key :
  In key (Object_keys (filter (fun kv => negb (omitted pathParameters (fst kv))) shape)) <->
  In key (Object_keys shape) /\ omitted pathParameters key = false.
Proof.
  rewrite (Object_keys_filter (fun key => negb (omitted pathParameters key))).
  rewrite filter_In, negb_true_iff. reflexivity.
Qed.



(** * Further properties of the derivers *)

(** ** Failures of the parameter deriver *)

Lemma for_of_Throw_first {A} (l1 l2 : list A) (a : A) (body : A -> Result unit) e :
  (forall a', In a' l1 -> body a' = Ok tt) ->
  body a = Throw e ->
  for_of (l1 ++ a :: l2) body = Throw e.
Proof.
  intros Hok Ha. induction l1 as [|a1 l1 IH]; simpl.
  - now rewrite Ha.
  - rewrite (Hok a1 (or_introl eq_refl)). simpl. apply IH.
    intros a' Hin. apply Hok. now right.
Qed.

(** X1: On a schema that unwraps to an object, the first declared path
    parameter that is not a field of the object makes [getParameterObjects]
    throw "Input parser expects key from path" with that name, for every
    scope and whatever the nodes of the fields are: the check runs before
    any field is looked at. *)
Theorem unknown_path_parameter schema shape before name after headersSchema inType :
  z.shape (unwrapZodType schema true) = Some shape ->
  (forall n, In n before -> In n (Object_keys shape)) ->
  ~ In name (Object_keys shape) ->
  getParameterObjects (IsZodType schema) (before ++ name :: after) headersSchema inType
  = Throw (TRPC {| TRPCError.message :=
                     "Input parser expects key from path: " ++ dquote ++ name ++ dquote;
                   TRPCError.code := "INTERNAL_SERVER_ERROR" |}).
Proof.
  intros Hshape Hbefore Hname.
  rewrite (getParameterObjects_object _ _ _ _ Hshape).
  erewrite for_of_Throw_first; [reflexivity| |].
  - intros n Hin. apply Hbefore, includes_In in Hin. now rewrite Hin.
  - apply includes_false in Hname. rewrite Hname. reflexivity.
Qed.

(** X2: A validator whose unwrapped node is not an object is rejected by
    both input derivers with "Input parser must be a ZodObject", unless it
    is void-like and no path parameter is declared.  In particular a void
    input with a declared path parameter is an error, not an absent
    result. *)
Theorem input_not_object schema pathParameters headersSchema inType contentTypes :
  instanceofZodTypeObject (unwrapZodType schema true) = false ->
  pathParameters <> [] \/ instanceofZodTypeLikeVoid (unwrapZodType schema true) = false ->
  getParameterObjects (IsZodType schema) pathParameters headersSchema inType
  = Throw (TRPC {| TRPCError.message := "Input parser must be a ZodObject";
                   TRPCError.code := "INTERNAL_SERVER_ERROR" |}) /\
  getRequestBodyObject (IsZodType schema) pathParameters contentTypes
  = Throw (TRPC {| TRPCError.message := "Input parser must be a ZodObject";
                   TRPCError.code := "INTERNAL_SERVER_ERROR" |}).
Proof.
  intros Hobj Hguard.
  assert (Hshort : Nat.eqb (List.length pathParameters) 0
                   && instanceofZodTypeLikeVoid (unwrapZodType schema true) = false).
  { destruct Hguard as [Hp|Hv]; [|now rewrite Hv, andb_false_r].
    destruct pathParameters; [congruence | reflexivity]. }
  unfold getParameterObjects, getRequestBodyObject. simpl.
  rewrite Hshort, Hobj. split; reflexivity.
Qed.

Lemma mapShapeKey_Throw_message isRequired shape pathParameters shapeKey node e :
  obj_get shape shapeKey = Some node ->
  mapShapeKey isRequired shape pathParameters shapeKey = Throw e ->
  (instanceofZodTypeLikeString node = false /\
   instanceofZodTypeCoercible node = false /\
   e = TRPC {| TRPCError.message :=
                 "Input parser key: " ++ dquote ++ shapeKey ++ dquote
                 ++ (if zodSupportsCoerce
                     then " must be ZodString, ZodNumber, ZodBoolean, ZodBigInt or ZodDate"
                     else " must be ZodString");
               TRPCError.code := "INTERNAL_SERVER_ERROR" |}) \/
  (instanceofZodTypeOptional node = true /\
   includes pathParameters shapeKey = true /\
   e = TRPC {| TRPCError.message :=
                 "Path parameter: " ++ dquote ++ shapeKey ++ dquote
                 ++ " must not be optional";
               TRPCError.code := "INTERNAL_SERVER_ERROR" |}).
Proof.
  intros Hget Hmap.
  destruct (instanceofZodTypeLikeString node) eqn:Hs;
    [|destruct (instanceofZodTypeCoercible node) eqn:Hc].
  3: { left. rewrite (mapShapeKey_unsupported _ _ _ _ Hget Hs Hc) in Hmap.
       inversion Hmap. auto. }
  all: destruct (instanceofZodTypeOptional node) eqn:Ho.
  all: try (destruct (includes pathParameters shapeKey) eqn:Hp;
            [right; erewrite mapShapeKey_optional_path in Hmap by eauto;
             inversion Hmap; auto|]).
  all: exfalso; revert Hmap; unfold mapShapeKey; rewrite Hget, Hs, Ho; simpl.
  all: try rewrite Hp.
  all: try (destruct (unwrap_optional _ Ho) as [inner ->]).
  all: try (assert (Hz : zodSupportsCoerce = true)
              by (unfold instanceofZodTypeCoercible in Hc;
                  now apply andb_true_iff in Hc);
            rewrite Hz in *; rewrite Hc).
  all: simpl; discriminate.
Qed.

(** X3: Every exception of [getParameterObjects] is a [TRPCError] with the
    code [INTERNAL_SERVER_ERROR] and one of five messages: not a validator,
    not an object, a declared path parameter that is no field, a selected
    field of an unsupported type, or an optional path parameter. *)
Theorem getParameterObjects_errors schema pathParameters headersSchema inType e :
  getParameterObjects schema pathParameters headersSchema inType = Throw e ->
  exists message,
    e = TRPC {| TRPCError.message := message; TRPCError.code := "INTERNAL_SERVER_ERROR" |} /\
    (message = "Input parser expects a Zod validator" \/
     message = "Input parser must be a ZodObject" \/
     (exists name, In name pathParameters /\
        message = ("Input parser expects key from path: " ++ dquote ++ name ++ dquote)%string) \/
     (exists key, filterShapeKey pathParameters inType key = true /\
        message = ("Input parser key: " ++ dquote ++ key ++ dquote
                   ++ (if zodSupportsCoerce
                       then " must be ZodString, ZodNumber, ZodBoolean, ZodBigInt or ZodDate"
                       else " must be ZodString"))%string) \/
     (exists key, In key pathParameters /\
        message = ("Path parameter: " ++ dquote ++ key ++ dquote
                   ++ " must not be optional")%string)).
Proof.
  destruct schema as [schema|v];
    [|intros H; inversion H; subst; eexists; split; [reflexivity|auto]].
  intros H.
  destruct (instanceofZodTypeObject (unwrapZodType schema true)) eqn:Hobj.
  - destruct (instanceofZodTypeObject_shape _ Hobj) as (shape & m & Hu).
    assert (Hshape : z.shape (unwrapZodType schema true) = Some shape) by now rewrite Hu.
    rewrite (getParameterObjects_object _ _ _ _ Hshape) in H.
    destruct (for_of pathParameters _) as [u|e'] eqn:Hfor; simpl in H.
    + destruct (deriveParameters _ shape pathParameters inType) as [ps|e'] eqn:Hps; simpl in H.
      * destruct (fold_left reduceParameter ps ([], [])); discriminate.
      * inversion H; subst e'. unfold deriveParameters in Hps.
        destruct (mapM_Throw_inv _ _ Hps) as (l1 & key & l2 & Hl & _ & Hkey).
        assert (Hin : In key (filter (filterShapeKey pathParameters inType)
                                     (Object_keys shape)))
          by (rewrite Hl; apply in_elt).
        apply filter_In in Hin. destruct Hin as [Hin Hsel].
        destruct (obj_get_of_key _ _ Hin) as [node Hnode].
        destruct (mapShapeKey_Throw_message _ _ _ _ Hnode Hkey)
          as [(_ & _ & ->)|(_ & Hp & ->)]; eexists; (split; [reflexivity|]).
        -- do 3 right. left. eauto.
        -- do 4 right. apply includes_In in Hp. eauto.
    + inversion H; subst e'.
      destruct (for_of_Throw_inv _ _ Hfor) as [name [Hname Hbody]].
      destruct (negb (includes (Object_keys shape) name)); [|discriminate].
      inversion Hbody; subst. eexists; split; [reflexivity|].
      do 2 right. left. eauto.
  - unfold getParameterObjects in H. simpl in H. rewrite Hobj in H. simpl in H.
    destruct (Nat.eqb (List.length pathParameters) 0
              && instanceofZodTypeLikeVoid (unwrapZodType schema true)); [discriminate|].
    inversion H; subst. eexists; split; [reflexivity|auto].
Qed.

(** ** When the parameter deriver returns *)

Lemma mapM_total {A B} (f : A -> Result B) (l : list A) :
  (forall a, In a l -> exists b, f a = Ok b) -> exists bs, mapM f l = Ok bs.
Proof.
  induction l as [|a l IH]; simpl; intros H; [eauto|].
  destruct (H a (or_introl eq_refl)) as [b ->]. simpl.
  destruct IH as [bs ->]; [auto|]. simpl. eauto.
Qed.

Lemma mapShapeKey_accepts isRequired shape pathParameters shapeKey node :
  obj_get shape shapeKey = Some node ->
  instanceofZodTypeLikeString node = true \/ instanceofZodTypeCoercible node = true ->
  (instanceofZodTypeOptional node = true -> includes pathParameters shapeKey = false) ->
  exists p, mapShapeKey isRequired shape pathParameters shapeKey = Ok p.
Proof.
  intros Hget Hok Hopt.
  destruct (mapShapeKey isRequired shape pathParameters shapeKey) as [p|e] eqn:Hmap;
    [eauto|exfalso].
  destruct (mapShapeKey_Throw_message _ _ _ _ Hget Hmap)
    as [(Hs & Hc & _)|(Ho & Hp & _)].
  - destruct Hok; congruence.
  - rewrite (Hopt Ho) in Hp. discriminate.
Qed.

(** X4: On a schema that unwraps to an object, [getParameterObjects]
    returns a result exactly when every declared path parameter is a field
    of the object and every field selected by the scope is string-like or
    coercible and, when it is optional-wrapped, is not a path parameter. *)
Theorem getParameterObjects_accepts schema shape pathParameters headersSchema inType :
  z.shape (unwrapZodType schema true) = Some shape ->
  ((exists r,
      getParameterObjects (IsZodType schema) pathParameters headersSchema inType
      = Ok (Some r)) <->
   (forall name, In name pathParameters -> In name (Object_keys shape)) /\
   (forall key node,
      filterShapeKey pathParameters inType key = true ->
      obj_get shape key = Some node ->
      (instanceofZodTypeLikeString node = true \/ instanceofZodTypeCoercible node = true) /\
      (instanceofZodTypeOptional node = true -> ~ In key pathParameters))).
Proof.
  intros Hshape. split.
  - intros [r Hcall].
    destruct (getParameterObjects_Some _ _ _ _ Hcall)
      as (shape' & ps & path & query & Hshape' & Hall & Hps & _ & _).
    rewrite Hshape in Hshape'. inversion Hshape'; subst shape'.
    split; [exact Hall|]. intros key node Hsel Hget.
    destruct (deriveParameters_Ok _ _ _ _ Hps) as (_ & Hin & Hex).
    destruct (Hex key (obj_get_In_keys shape key Hget) Hsel) as (p & Hp & Hname).
    destruct (Hin _ Hp) as (_ & _ & Hmap).
    destruct (mapShapeKey_Ok _ _ _ _ Hmap) as (node' & Hget' & Hok & Hsch & _).
    rewrite Hname, Hget in Hget'. inversion Hget'; subst node'.
    split; [exact Hok|]. intros Ho. rewrite Ho, Hname in Hsch.
    apply includes_false. tauto.
  - intros [Hall Hfields].
    rewrite (getParameterObjects_object _ _ _ _ Hshape).
    rewrite for_of_Ok.
    + simpl. unfold deriveParameters.
      destruct (@mapM_total _ _
                  (mapShapeKey (negb (isOptional schema)) shape pathParameters)
                  (filter (filterShapeKey pathParameters inType) (Object_keys shape)))
        as [ps ->].
      * intros key Hin. apply filter_In in Hin. destruct Hin as [Hin Hsel].
        destruct (obj_get_of_key _ _ Hin) as [node Hget].
        destruct (Hfields key node Hsel Hget) as [Hok Hopt].
        eapply mapShapeKey_accepts; eauto.
        intros Ho. apply includes_false. auto.
      * simpl. destruct (fold_left reduceParameter ps ([], [])). eauto.
    + intros name Hin. apply Hall, includes_In in Hin. now rewrite Hin.
Qed.

(** X5: For a validator, [getParameterObjects] returns [undefined] exactly
    when no path parameter is declared and the schema unwraps to a void-like
    node.  An object without any field, or one whose fields the scope
    filters out, gives a result with empty [path] and [query] objects, not
    an absent one. *)
Theorem parameters_absent_iff schema pathParameters headersSchema inType :
  getParameterObjects (IsZodType schema) pathParameters headersSchema inType = Ok None <->
  pathParameters = [] /\ instanceofZodTypeLikeVoid (unwrapZodType schema true) = true.
Proof.
  split.
  - intros H.
    destruct (Nat.eqb (List.length pathParameters) 0
              && instanceofZodTypeLikeVoid (unwrapZodType schema true)) eqn:Hb.
    + apply andb_true_iff in Hb. destruct Hb as [Hp Hv]. apply Nat.eqb_eq in Hp.
      apply length_zero_iff_nil in Hp. auto.
    + exfalso. destruct (instanceofZodTypeObject (unwrapZodType schema true)) eqn:Hobj.
      * destruct (instanceofZodTypeObject_shape _ Hobj) as (shape & m & Hu).
        assert (Hshape : z.shape (unwrapZodType schema true) = Some shape) by now rewrite Hu.
        rewrite (getParameterObjects_object _ _ _ _ Hshape) in H.
        destruct (for_of _ _) as [u|e]; simpl in H; [|discriminate].
        destruct (deriveParameters _ _ _ _) as [l|e]; simpl in H; [|discriminate].
        destruct (fold_left _ _ _); discriminate.
      * unfold getParameterObjects in H. simpl in H. rewrite Hb, Hobj in H.
        discriminate.
  - intros [-> Hv]. unfold getParameterObjects. simpl. now rewrite Hv.
Qed.

(** ** The two input derivers together *)

(** X6: The request body deriver fails only where the parameter deriver
    fails too, and with the same error: whenever [getParameterObjects]
    returns for an input, [getRequestBodyObject] returns for it. *)
Theorem body_errors_are_parameter_errors
    schema pathParameters headersSchema inType contentTypes e :
  getRequestBodyObject schema pathParameters contentTypes = Throw e ->
  getParameterObjects schema pathParameters headersSchema inType = Throw e.
Proof.
  destruct schema as [type|v]; [|intros H; inversion H; reflexivity].
  intros H.
  destruct (instanceofZodTypeObject (unwrapZodType type true)) eqn:Hobj.
  - destruct (instanceofZodTypeObject_shape _ Hobj) as (shape & m & Hu).
    erewrite getRequestBodyObject_object in H by exact Hu. cbv zeta in H.
    destruct (_ && _) in H; discriminate.
  - unfold getRequestBodyObject in H. unfold getParameterObjects.
    simpl in *. rewrite Hobj in *. simpl in *.
    destruct (_ && _); [discriminate | inversion H; reflexivity].
Qed.

(** X7: For a validator, [getRequestBodyObject] returns [undefined] in
    exactly two cases: no path parameter is declared and the schema unwraps
    to a void-like node; or a path parameter is declared, the schema unwraps
    to an object, and every field of the object is a path parameter or is
    named like a member of [Object.prototype]. *)
Theorem body_absent_iff schema pathParameters contentTypes :
  getRequestBodyObject (IsZodType schema) pathParameters contentTypes = Ok None <->
  (pathParameters = [] /\ instanceofZodTypeLikeVoid (unwrapZodType schema true) = true) \/
  (pathParameters <> [] /\
   exists shape,
     z.shape (unwrapZodType schema true) = Some shape /\
     forall key, In key (Object_keys shape) ->
       In key pathParameters \/ In key Object_prototype_keys).
Proof.
  assert (Homitted : forall key,
    omitted pathParameters key = true <->
    In key pathParameters \/ In key Object_prototype_keys).
  { intros key. unfold omitted. rewrite orb_true_iff, !includes_In. reflexivity. }
  assert (Hdeduped : forall shape,
    filter (fun kv : string * ZodType => negb (omitted pathParameters (fst kv))) shape = []
    <-> forall key, In key (Object_keys shape) ->
          In key pathParameters \/ In key Object_prototype_keys).
  { intros shape. split.
    - intros Hnil key Hin. apply Homitted.
      destruct (omitted pathParameters key) eqn:Hp; [reflexivity|exfalso].
      pose proof (proj2 (dedupedShape_keys pathParameters shape key) (conj Hin Hp)) as Hk.
      rewrite Hnil in Hk. exact Hk.
    - intros Hall.
      destruct (filter _ shape) as [|[k v] rest] eqn:Hf; [reflexivity|exfalso].
      assert (Hk : In k (Object_keys ((k, v) :: rest))) by (simpl; auto).
      rewrite <- Hf in Hk. apply dedupedShape_keys in Hk. destruct Hk as [Hk Hp].
      apply Hall, Homitted in Hk. congruence. }
  destruct (instanceofZodTypeObject (unwrapZodType schema true)) eqn:Hobj.
  - destruct (instanceofZodTypeObject_shape _ Hobj) as (shape & m & Hu).
    destruct (object_unwrapped_guards _ Hu) as [Hvoid _].
    erewrite getRequestBodyObject_object by exact Hu. cbv zeta.
    rewrite Hvoid, Hu. unfold z.shape; simpl.
    destruct (Nat.ltb 0 (List.length pathParameters)
              && Nat.eqb (List.length (Object_keys
                   (filter (fun kv => negb (omitted pathParameters (fst kv))) shape))) 0)
      eqn:Hb.
    + apply andb_true_iff in Hb. destruct Hb as [Hp Hd].
      apply Nat.ltb_lt in Hp. apply Nat.eqb_eq in Hd.
      unfold Object_keys in Hd. rewrite length_map in Hd. apply length_zero_iff_nil in Hd.
      split; [intros _|reflexivity]. right. split.
      * destruct pathParameters; [simpl in Hp; lia | discriminate].
      * exists shape. split; [reflexivity|]. now apply Hdeduped.
    + split; [discriminate|]. intros [[_ ?]|[Hp (shape' & Hs & Hall)]]; [discriminate|].
      inversion Hs; subst shape'. apply Hdeduped in Hall. rewrite Hall in Hb.
      destruct pathParameters; [congruence | discriminate].
  - unfold getRequestBodyObject. simpl. rewrite Hobj. simpl.
    destruct (Nat.eqb (List.length pathParameters) 0
              && instanceofZodTypeLikeVoid (unwrapZodType schema true)) eqn:Hb.
    + apply andb_true_iff in Hb. destruct Hb as [Hp Hv]. apply Nat.eqb_eq in Hp.
      apply length_zero_iff_nil in Hp. split; auto.
    + split; [discriminate|]. intros [[-> Hv]|[_ (shape & Hs & _)]].
      * rewrite Hv in Hb. discriminate.
      * destruct (shape_unwrapped _ Hs) as [m Hu].
        destruct (object_unwrapped_guards _ Hu) as [_ Habs]. congruence.
Qed.

(** ** What the scope selects *)

(** X8: On a call that returns, the [path] object has exactly the declared
    path parameters as fields, unless the scope is [query], and then it has
    none; the [query] object has exactly the fields of the input object
    that are not path parameters, unless the scope is [path], and then it
    has none. *)
Theorem scope_partition schema shape pathParameters headersSchema inType r :
  z.shape (unwrapZodType schema true) = Some shape ->
  getParameterObjects (IsZodType schema) pathParameters headersSchema inType = Ok (Some r) ->
  forall key,
    (In key (fieldNames (ZodOpenApiParameters.path r)) <->
     In key pathParameters /\ inType <> In_query) /\
    (In key (fieldNames (ZodOpenApiParameters.query r)) <->
     In key (Object_keys shape) /\ ~ In key pathParameters /\ inType <> In_path).
Proof.
  intros Hshape Hcall key.
  destruct (parameters_fieldNames _ _ _ _ Hshape Hcall key) as [Hpath Hquery].
  destruct (getParameterObjects_Some _ _ _ _ Hcall)
    as (shape' & _ & _ & _ & Hshape' & Hall & _).
  rewrite Hshape in Hshape'. inversion Hshape'; subst shape'.
  rewrite Hpath, Hquery, <- includes_false. unfold filterShapeKey.
  pose proof (includes_In pathParameters key) as Hin.
  destruct (includes pathParameters key) eqn:Hp; destruct inType; simpl;
    split; split; intros H; repeat split; try tauto; try congruence;
    try (apply Hall; tauto); try (destruct H as (? & ? & ?); congruence).
Qed.

(** ** The nodes of the derived parameters *)

Lemma unwrapZodType_optional (type inner : ZodType) :
  z.unwrap type = Some inner -> unwrapZodType type true = unwrapZodType inner true.
Proof.
  destruct type as [[] m]; unfold z.unwrap; simpl; try discriminate.
  intros H; inversion H; reflexivity.
Qed.

(** X9: Every node of the returned [path] and [query] objects differs from
    the node of the field it comes from by optional layers only: it is the
    field's node with its optional layer removed, if it has one, either as
    such or wrapped in one new optional layer.  No other layer is added or
    removed, so the derived node is string-like or coercible as the field
    is. *)
Theorem derived_node_base_type schema shape pathParameters headersSchema inType r :
  z.shape (unwrapZodType schema true) = Some shape ->
  getParameterObjects (IsZodType schema) pathParameters headersSchema inType = Ok (Some r) ->
  exists path query,
    ZodOpenApiParameters.path r = z.object path /\
    ZodOpenApiParameters.query r = z.object query /\
    forall key derived,
      obj_get path key = Some derived \/ obj_get query key = Some derived ->
      exists node base,
        obj_get shape key = Some node /\
        (if instanceofZodTypeOptional node
         then z.unwrap node = Some base
         else base = node) /\
        (derived = base \/ derived = z.optional base) /\
        (instanceofZodTypeLikeString derived = true \/
         instanceofZodTypeCoercible derived = true).
Proof.
  intros Hshape Hcall.
  destruct (getParameterObjects_Some _ _ _ _ Hcall)
    as (shape' & ps & path & query & Hshape' & _ & Hps & Hfold & ->).
  rewrite Hshape in Hshape'. inversion Hshape'; subst shape'.
  exists path, query. split; [reflexivity|]. split; [reflexivity|].
  destruct (deriveParameters_Ok _ _ _ _ Hps) as (Hco & Hin & _).
  intros key derived Hget.
  assert (Hp : exists p, In p ps /\ Param.name p = key /\
             derived = (if Param.required p then Param.schema p
                        else z.optional (Param.schema p))).
  { destruct (reduce_keys _ _ _ Hfold key) as [Hkp Hkq].
    destruct Hget as [Hget|Hget].
    - apply proj1 in Hkp. destruct (Hkp (obj_get_In_keys _ _ Hget))
        as [[]|(p & Hp & Hname & Hty)].
      exists p. repeat split; auto.
      pose proof (@reduce_get ps [] [] path query Hco Hfold p Hp) as Hr.
      rewrite Hty, Hname, Hget in Hr. congruence.
    - apply proj1 in Hkq. destruct (Hkq (obj_get_In_keys _ _ Hget))
        as [[]|(p & Hp & Hname & Hty)].
      exists p. repeat split; auto.
      pose proof (@reduce_get ps [] [] path query Hco Hfold p Hp) as Hr.
      rewrite Hty, Hname, Hget in Hr. congruence. }
  destruct Hp as (p & Hp & Hname & ->).
  destruct (Hin _ Hp) as (_ & _ & Hmap).
  destruct (mapShapeKey_Ok _ _ _ _ Hmap) as (node & Hnode & Hok & Hsch & _).
  rewrite Hname in Hnode. exists node, (Param.schema p). split; [assumption|].
  assert (Hbase : unwrapZodType (Param.schema p) true = unwrapZodType node true).
  { destruct (instanceofZodTypeOptional node).
    - destruct Hsch as [_ Hun]. symmetry. now apply unwrapZodType_optional.
    - now rewrite Hsch. }
  assert (Hderived :
    unwrapZodType (if Param.required p then Param.schema p
                   else z.optional (Param.schema p)) true
    = unwrapZodType node true).
  { destruct (Param.required p); [exact Hbase | simpl; exact Hbase]. }
  split; [|split].
  - destruct (instanceofZodTypeOptional node); tauto.
  - destruct (Param.required p); auto.
  - unfold instanceofZodTypeLikeString, instanceofZodTypeCoercible in *.
    rewrite Hderived. exact Hok.
Qed.

(** ** The order of the derived fields *)

Lemma obj_set_fresh {V} (o : JsObject V) (k : string) (v : V) :
  ~ In k (Object_keys o) -> obj_set o k v = o ++ [(k, v)].
Proof.
  induction o as [|[k0 v0] o IH]; simpl; intros Hk; [reflexivity|].
  destruct (String.eqb_spec k0 k) as [->|Hne]; [tauto|].
  rewrite IH; tauto.
Qed.

Lemma mapM_names {A B} (f : A -> Result B) (name : B -> A) (l : list A) (bs : list B) :
  (forall a b, f a = Ok b -> name b = a) ->
  mapM f l = Ok bs -> map name bs = l.
Proof.
  intros Hname. revert bs. induction l as [|a l IH]; simpl; intros bs H.
  - inversion H; reflexivity.
  - destruct (f a) as [b|e] eqn:Hfa; simpl in H; [|discriminate].
    destruct (mapM f l) as [bs'|e] eqn:Hm; simpl in H; [|discriminate].
    inversion H; subst. simpl. now rewrite (Hname _ _ Hfa), (IH bs' eq_refl).
Qed.

Lemma map_filter_names {A B} (name : B -> A) (g : A -> bool) (g' : B -> bool) (bs : list B) :
  (forall b, In b bs -> g' b = g (name b)) ->
  map name (filter g' bs) = filter g (map name bs).
Proof.
  induction bs as [|b bs IH]; simpl; intros H; [reflexivity|].
  rewrite (H b (or_introl eq_refl)). destruct (g (name b)); simpl; rewrite IH; auto.
Qed.

Lemma reduce_fresh ps path query :
  NoDup (map Param.name ps) ->
  (forall p, In p ps ->
     ~ In (Param.name p) (Object_keys path) /\ ~ In (Param.name p) (Object_keys query)) ->
  fold_left reduceParameter ps (path, query)
  = (path ++ map entryOf (filter isPathParam ps),
     query ++ map entryOf (filter (fun p => negb (isPathParam p)) ps)).
Proof.
  revert path query. induction ps as [|p ps IH]; intros path query Hnd Hfresh.
  - simpl. now rewrite !app_nil_r.
  - inversion Hnd as [|? ? Hp Hnd']; subst.
    destruct (Hfresh p (or_introl eq_refl)) as [Hpath Hquery].
    assert (Hstep : reduceParameter (path, query) p
                    = if isPathParam p
                      then (obj_set path (Param.name p) (snd (entryOf p)), query)
                      else (path, obj_set query (Param.name p) (snd (entryOf p)))).
    { unfold reduceParameter, isPathParam, entryOf.
      destruct (Param.paramType p); reflexivity. }
    cbn [fold_left filter]. rewrite Hstep.
    destruct (isPathParam p) eqn:Hip; simpl negb; cbv iota.
    + rewrite IH; [|assumption|].
      * rewrite obj_set_fresh by exact Hpath. simpl map.
        rewrite <- app_assoc. reflexivity.
      * intros q Hq. destruct (Hfresh q (or_intror Hq)) as [Hq1 Hq2].
        split; [|assumption]. rewrite obj_keys_set. intros [Heq|?]; [|tauto].
        apply Hp. rewrite <- Heq. now apply in_map.
    + rewrite IH; [|assumption|].
      * rewrite obj_set_fresh by exact Hquery. simpl map.
        rewrite <- app_assoc. reflexivity.
      * intros q Hq. destruct (Hfresh q (or_intror Hq)) as [Hq1 Hq2].
        split; [assumption|]. rewrite obj_keys_set. intros [Heq|?]; [|tauto].
        apply Hp. rewrite <- Heq. now apply in_map.
Qed.

(** X10: When the fields of the input object have distinct names, the
    fields of the returned [path] and [query] objects come in the order in
    which the input object declares them: they are the selected field names
    that are, respectively are not, path parameters. *)
Theorem derived_field_order schema shape pathParameters headersSchema inType r :
  z.shape (unwrapZodType schema true) = Some shape ->
  NoDup (Object_keys shape) ->
  getParameterObjects (IsZodType schema) pathParameters headersSchema inType = Ok (Some r) ->
  fieldNames (ZodOpenApiParameters.path r)
  = filter (fun key => includes pathParameters key)
           (filter (filterShapeKey pathParameters inType) (Object_keys shape)) /\
  fieldNames (ZodOpenApiParameters.query r)
  = filter (fun key => negb (includes pathParameters key))
           (filter (filterShapeKey pathParameters inType) (Object_keys shape)).
Proof.
  intros Hshape Hnd Hcall.
  destruct (getParameterObjects_Some _ _ _ _ Hcall)
    as (shape' & ps & path & query & Hshape' & _ & Hps & Hfold & ->).
  rewrite Hshape in Hshape'. inversion Hshape'; subst shape'.
  assert (Hnames : map Param.name ps
                   = filter (filterShapeKey pathParameters inType) (Object_keys shape)).
  { unfold deriveParameters in Hps. eapply mapM_names; [|exact Hps].
    intros key p Hmap.
    now destruct (mapShapeKey_Ok _ _ _ _ Hmap) as (node & _ & _ & _ & Hname & _). }
  assert (Hty : forall p, In p ps -> isPathParam p = includes pathParameters (Param.name p)).
  { destruct (deriveParameters_Ok _ _ _ _ Hps) as (_ & Hin & _).
    intros p Hp. destruct (Hin _ Hp) as (_ & _ & Hmap).
    destruct (mapShapeKey_Ok _ _ _ _ Hmap) as (node & _ & _ & _ & _ & Hty & _).
    unfold isPathParam. rewrite Hty.
    now destruct (includes pathParameters (Param.name p)). }
  rewrite reduce_fresh in Hfold.
  - inversion Hfold; subst path query. unfold fieldNames; simpl.
    unfold Object_keys in *. rewrite !map_map. simpl. rewrite <- Hnames. split.
    + apply map_filter_names. exact Hty.
    + apply map_filter_names with (g := fun key => negb (includes pathParameters key)).
      intros p Hp. now rewrite Hty.
  - rewrite Hnames. now apply NoDup_filter.
  - simpl. tauto.
Qed.

(** ** The scopes compose *)

Lemma mapM_filter {A B} (f : A -> Result B) (g : A -> bool) (g' : B -> bool)
    (l : list A) (bs : list B) :
  (forall a b, f a = Ok b -> g' b = g a) ->
  mapM f l = Ok bs -> mapM f (filter g l) = Ok (filter g' bs).
Proof.
  intros Hg. revert bs. induction l as [|a l IH]; simpl; intros bs H.
  - inversion H; reflexivity.
  - destruct (f a) as [b|e] eqn:Hfa; simpl in H; [|discriminate].
    destruct (mapM f l) as [bs'|e] eqn:Hm; simpl in H; [|discriminate].
    inversion H; subst. simpl. rewrite (Hg _ _ Hfa).
    destruct (g a); simpl; [rewrite Hfa; simpl|]; now rewrite (IH bs' eq_refl).
Qed.

Lemma reduce_filter_path ps path query query' :
  fold_left reduceParameter (filter isPathParam ps) (path, query')
  = (fst (fold_left reduceParameter ps (path, query)), query').
Proof.
  revert path query. induction ps as [|p ps IH]; intros path query; [reflexivity|].
  cbn [fold_left filter]. unfold reduceParameter at 3, isPathParam at 1.
  destruct (Param.paramType p) eqn:Hty.
  - cbn [fold_left]. unfold reduceParameter at 2. rewrite Hty. apply IH.
  - apply IH.
Qed.

Lemma reduce_filter_query ps path path' query :
  fold_left reduceParameter (filter (fun p => negb (isPathParam p)) ps) (path', query)
  = (path', snd (fold_left reduceParameter ps (path, query))).
Proof.
  revert path query. induction ps as [|p ps IH]; intros path query; [reflexivity|].
  cbn [fold_left filter]. unfold reduceParameter at 3, isPathParam at 1.
  destruct (Param.paramType p) eqn:Hty; simpl negb; cbv iota.
  - apply IH.
  - cbn [fold_left]. unfold reduceParameter at 2. rewrite Hty. apply IH.
Qed.

(** X11: A call with the scope [all] that returns is the sum of the calls
    with the scopes [path] and [query]: the [path] call returns the same
    [path] object with an empty [query] object, and the [query] call the
    same [query] object with an empty [path] object. *)
Theorem scope_all_splits schema pathParameters headersSchema r :
  getParameterObjects (IsZodType schema) pathParameters headersSchema In_all = Ok (Some r) ->
  getParameterObjects (IsZodType schema) pathParameters headersSchema In_path
  = Ok (Some {| ZodOpenApiParameters.header := headersSchema;
                ZodOpenApiParameters.path := ZodOpenApiParameters.path r;
                ZodOpenApiParameters.query := z.object [] |}) /\
  getParameterObjects (IsZodType schema) pathParameters headersSchema In_query
  = Ok (Some {| ZodOpenApiParameters.header := headersSchema;
                ZodOpenApiParameters.path := z.object [];
                ZodOpenApiParameters.query := ZodOpenApiParameters.query r |}).
Proof.
  intros Hcall.
  destruct (getParameterObjects_Some _ _ _ _ Hcall)
    as (shape & ps & path & query & Hshape & Hall & Hps & Hfold & ->).
  assert (Hfor : for_of pathParameters (fun pathParameter =>
            if negb (includes (Object_keys shape) pathParameter) then
              throw_TRPCError
                ("Input parser expects key from path: " ++ dquote
                 ++ pathParameter ++ dquote)
                INTERNAL_SERVER_ERROR
            else Ok tt) = Ok tt).
  { apply for_of_Ok. intros name Hin. apply Hall, includes_In in Hin. now rewrite Hin. }
  assert (Hkeys : mapM (mapShapeKey (negb (isOptional schema)) shape pathParameters)
                       (Object_keys shape) = Ok ps).
  { unfold deriveParameters in Hps.
    assert (Hsel : forall l : list string,
              filter (filterShapeKey pathParameters In_all) l = l)
      by (induction l as [|k l IH]; simpl; congruence).
    now rewrite Hsel in Hps. }
  assert (Hty : forall key p,
            mapShapeKey (negb (isOptional schema)) shape pathParameters key = Ok p ->
            isPathParam p = includes pathParameters key).
  { intros key p Hmap.
    destruct (mapShapeKey_Ok _ _ _ _ Hmap) as (node & _ & _ & _ & _ & Hty & _).
    unfold isPathParam. rewrite Hty. now destruct (includes pathParameters key). }
  assert (Hpath : fold_left reduceParameter (filter isPathParam ps) ([], []) = (path, [])).
  { etransitivity; [exact (reduce_filter_path ps [] [] [])|].
    exact (f_equal (fun pq : ZodRawShape * ZodRawShape => (fst pq, [])) Hfold). }
  assert (Hquery : fold_left reduceParameter (filter (fun p => negb (isPathParam p)) ps)
                             ([], []) = ([], query)).
  { etransitivity; [exact (reduce_filter_query ps [] [] [])|].
    exact (f_equal (fun pq : ZodRawShape * ZodRawShape => ([], snd pq)) Hfold). }
  rewrite !(getParameterObjects_object _ _ _ _ Hshape), Hfor. simpl.
  unfold deriveParameters. split.
  - erewrite (mapM_filter _ (filterShapeKey pathParameters In_path) isPathParam);
      [|exact Hty|exact Hkeys].
    exact (f_equal
             (fun pq : ZodRawShape * ZodRawShape =>
                let '(path0, query0) := pq in
                Ok (Some {| ZodOpenApiParameters.header := headersSchema;
                            ZodOpenApiParameters.path := z.object path0;
                            ZodOpenApiParameters.query := z.object query0 |}))
             Hpath).
  - erewrite (mapM_filter _ (filterShapeKey pathParameters In_query)
                (fun p => negb (isPathParam p))); [| |exact Hkeys].
    + exact (f_equal
               (fun pq : ZodRawShape * ZodRawShape =>
                  let '(path0, query0) := pq in
                  Ok (Some {| ZodOpenApiParameters.header := headersSchema;
                              ZodOpenApiParameters.path := z.object path0;
                              ZodOpenApiParameters.query := z.object query0 |}))
               Hquery).
    + intros key p Hmap. unfold filterShapeKey. now rewrite (Hty _ _ Hmap).
Qed.

(** ** The content of the request body *)



(** ** Optional markers in the result *)

(** X13: In a result of [getParameterObjects] no node of the [path] object
    is optional-wrapped, and when the input schema itself is optional every
    node of the [query] object is optional-wrapped. *)
Theorem optional_markers schema pathParameters headersSchema inType r :
  getParameterObjects (IsZodType schema) pathParameters headersSchema inType = Ok (Some r) ->
  exists path query,
    ZodOpenApiParameters.path r = z.object path /\
    ZodOpenApiParameters.query r = z.object query /\
    (forall key derived,
       obj_get path key = Some derived -> instanceofZodTypeOptional derived = false) /\
    (isOptional schema = true ->
     forall key derived,
       obj_get query key = Some derived -> instanceofZodTypeOptional derived = true).
Proof.
  intros Hcall.
  destruct (getParameterObjects_Some _ _ _ _ Hcall)
    as (shape & ps & path & query & Hshape & _ & Hps & Hfold & ->).
  exists path, query. split; [reflexivity|]. split; [reflexivity|].
  destruct (deriveParameters_Ok _ _ _ _ Hps) as (Hco & Hin & _).
  split.
  - intros key derived Hget.
    destruct (reduce_keys _ _ _ Hfold key) as [Hkp _]. apply proj1 in Hkp.
    destruct (Hkp (obj_get_In_keys _ _ Hget)) as [[]|(p & Hp & Hname & Hty)].
    pose proof (@reduce_get ps [] [] path query Hco Hfold p Hp) as Hr.
    rewrite Hty, Hname, Hget in Hr. inversion Hr as [Hd]; clear Hr.
    destruct (Hin _ Hp) as (_ & _ & Hmap).
    destruct (mapShapeKey_Ok _ _ _ _ Hmap) as (node & _ & _ & Hsch & _ & Hty' & Hreq).
    rewrite Hty in Hty'.
    destruct (includes pathParameters (Param.name p)) eqn:Hinc; [|discriminate].
    rewrite Hreq. simpl.
    destruct (instanceofZodTypeOptional node) eqn:Ho.
    + destruct Hsch; discriminate.
    + now rewrite Hsch.
  - intros Hopt key derived Hget.
    destruct (reduce_keys _ _ _ Hfold key) as [_ Hkq]. apply proj1 in Hkq.
    destruct (Hkq (obj_get_In_keys _ _ Hget)) as [[]|(p & Hp & Hname & Hty)].
    pose proof (@reduce_get ps [] [] path query Hco Hfold p Hp) as Hr.
    rewrite Hty, Hname, Hget in Hr. inversion Hr as [Hd]; clear Hr.
    destruct (Hin _ Hp) as (_ & _ & Hmap).
    destruct (mapShapeKey_Ok _ _ _ _ Hmap) as (node & _ & _ & _ & _ & Hty' & Hreq).
    rewrite Hty in Hty'.
    destruct (includes pathParameters (Param.name p)) eqn:Hinc; [discriminate|].
    rewrite Hreq, Hopt. reflexivity.
Qed.

(** ** Path parameters as a set *)

Lemma mapM_ext {A B} (f g : A -> Result B) (l : list A) :
  (forall a, f a = g a) -> mapM f l = mapM g l.
Proof.
  intros Hfg. induction l as [|a l IH]; simpl; [reflexivity|]. now rewrite Hfg, IH.
Qed.

(** X14: The request body depends on the declared path parameters only
    through the set of their names: two lists with the same names, in any
    order and with any repetition, give the same outcome.  So does the
    parameter deriver whenever it returns. *)
Theorem path_parameters_as_set
    schema pathParameters pathParameters' headersSchema inType contentTypes :
  (forall name, In name pathParameters <-> In name pathParameters') ->
  getRequestBodyObject schema pathParameters contentTypes
  = getRequestBodyObject schema pathParameters' contentTypes /\
  (forall r,
     getParameterObjects schema pathParameters headersSchema inType = Ok r ->
     getParameterObjects schema pathParameters' headersSchema inType = Ok r).
Proof.
  intros Hsame.
  assert (Hinc : forall key, includes pathParameters key = includes pathParameters' key).
  { intros key. pose proof (includes_In pathParameters key) as H1.
    pose proof (includes_In pathParameters' key) as H2. specialize (Hsame key).
    destruct (includes pathParameters key), (includes pathParameters' key);
      try reflexivity; intuition congruence. }
  assert (Hlen : Nat.eqb (List.length pathParameters) 0
                 = Nat.eqb (List.length pathParameters') 0).
  { destruct pathParameters as [|p ps], pathParameters' as [|p' ps']; try reflexivity.
    - destruct (proj2 (Hsame p') (or_introl eq_refl)).
    - destruct (proj1 (Hsame p) (or_introl eq_refl)). }
  assert (Hpos : Nat.ltb 0 (List.length pathParameters)
                 = Nat.ltb 0 (List.length pathParameters')).
  { destruct pathParameters, pathParameters'; try reflexivity; discriminate. }
  destruct schema as [type|v]; [|split; [reflexivity|intros r H; exact H]].
  destruct (instanceofZodTypeObject (unwrapZodType type true)) eqn:Hobj.
  - destruct (instanceofZodTypeObject_shape _ Hobj) as (shape & m & Hu).
    assert (Hshape : z.shape (unwrapZodType type true) = Some shape) by now rewrite Hu.
    split.
    + erewrite !getRequestBodyObject_object by exact Hu. cbv zeta.
      rewrite Hpos.
      rewrite (filter_ext (fun kv => negb (omitted pathParameters (fst kv)))
                          (fun kv => negb (omitted pathParameters' (fst kv))));
        [reflexivity|]. intros kv. unfold omitted. now rewrite Hinc.
    + intros r. rewrite !(getParameterObjects_object _ _ _ _ Hshape).
      destruct (for_of pathParameters _) as [u|e] eqn:Hfor; simpl; [|discriminate].
      rewrite for_of_Ok.
      * simpl. unfold deriveParameters.
        rewrite (filter_ext (filterShapeKey pathParameters inType)
                            (filterShapeKey pathParameters' inType));
          [|intros key; unfold filterShapeKey; now rewrite Hinc].
        rewrite (mapM_ext (mapShapeKey (negb (isOptional type)) shape pathParameters)
                          (mapShapeKey (negb (isOptional type)) shape pathParameters'));
          [auto|]. intros key. unfold mapShapeKey. now rewrite Hinc.
      * intros name Hin. apply Hsame in Hin.
        destruct (for_of_Ok_inv _ _ Hfor _ Hin) as [u' Hbody].
        destruct (negb (includes (Object_keys shape) name)); [discriminate|reflexivity].
  - unfold getRequestBodyObject, getParameterObjects. simpl.
    rewrite Hobj, Hlen. split; [reflexivity|auto].
Qed.

End Derivers.

(** * The properties at work on the examples *)

Lemma getParameterObjects_required_example :
  exists shape ps path query,
    z.shape (unwrapZodType exampleInput true) = Some shape /\
    deriveParameters acceptsUndefined true (negb (acceptsUndefined exampleInput))
      shape ["id"] In_all = Ok ps /\
    ZodOpenApiParameters.path exampleParameters = z.object path /\
    ZodOpenApiParameters.query exampleParameters = z.object query /\
    (forall key, In key (Object_keys shape) ->
       filterShapeKey ["id"] In_all key = true ->
       exists p, In p ps /\ Param.name p = key) /\
    (forall p, In p ps ->
       exists node,
         obj_get shape (Param.name p) = Some node /\
         (includes ["id"] (Param.name p) = true ->
            Param.paramType p = Param_path /\ Param.required p = true) /\
         (includes ["id"] (Param.name p) = false ->
            Param.paramType p = Param_query /\
            (Param.required p = true <->
             acceptsUndefined exampleInput = false /\ acceptsUndefined node = false)) /\
         (if instanceofZodTypeOptional node
          then z.unwrap node = Some (Param.schema p)
          else Param.schema p = node) /\
         obj_get match Param.paramType p with Param_path => path | Param_query => query end
                 (Param.name p)
         = Some (if Param.required p then Param.schema p
                 else z.optional (Param.schema p))).
Proof.
  apply (@getParameterObjects_required acceptsUndefined true exampleInput ["id"] None In_all
           exampleParameters).
  reflexivity.
Defined.

Lemma path_parameter_required_example :
  let p := {| Param.name := "id"; Param.paramType := Param_path;
              Param.required := true; Param.schema := z.string |} in
  Param.name p = "id" /\
  Param.paramType p = Param_path /\
  Param.required p = true /\
  Param.schema p = z.string /\
  (forall headersSchema inType r,
     filterShapeKey ["id"] inType "id" = true ->
     getParameterObjects acceptsUndefined true (IsZodType exampleInput) ["id"]
       headersSchema inType = Ok (Some r) ->
     exists path,
       ZodOpenApiParameters.path r = z.object path /\ obj_get path "id" = Some z.string).
Proof.
  apply (@path_parameter_required acceptsUndefined true exampleInput
           [("id", z.string); ("name", z.optional z.string)] ["id"] "id" z.string).
  - reflexivity.
  - intros name [<-|[]]. simpl. auto.
  - simpl. auto.
  - reflexivity.
  - reflexivity.
Defined.

Lemma void_input_absent_example :
  getParameterObjects acceptsUndefined true (IsZodType (z.optional (z.default z.void)))
    [] None In_all = Ok None /\
  getRequestBodyObject acceptsUndefined (IsZodType (z.optional (z.default z.void)))
    [] ["application/json"] = Ok None.
Proof.
  apply (@void_input_absent acceptsUndefined true (z.optional (z.default z.void))
           None In_all ["application/json"]).
  reflexivity.
Defined.

Lemma optional_path_parameter_example :
  (exists err,
     getParameterObjects acceptsUndefined true (IsZodType optionalIdInput) ["id"] None In_path
     = Throw (TRPC err) /\
     TRPCError.code err = "INTERNAL_SERVER_ERROR") /\
  ((forall name, In name ["id"] -> In name (Object_keys [("id", z.optional z.string)])) ->
   instanceofZodTypeLikeString (z.optional z.string) = true \/
   instanceofZodTypeCoercible true (z.optional z.string) = true ->
   forall before after,
     filter (filterShapeKey ["id"] In_path) (Object_keys [("id", z.optional z.string)])
     = before ++ "id" :: after ->
     (forall k, In k before ->
        exists p, mapShapeKey acceptsUndefined true (negb (acceptsUndefined optionalIdInput))
                    [("id", z.optional z.string)] ["id"] k = Ok p) ->
     getParameterObjects acceptsUndefined true (IsZodType optionalIdInput) ["id"] None In_path
     = Throw (TRPC {| TRPCError.message :=
                        "Path parameter: " ++ dquote ++ "id" ++ dquote
                        ++ " must not be optional";
                      TRPCError.code := "INTERNAL_SERVER_ERROR" |})).
Proof.
  apply (@optional_path_parameter acceptsUndefined true optionalIdInput
           [("id", z.optional z.string)] ["id"] None In_path "id" (z.optional z.string)).
  - reflexivity.
  - reflexivity.
  - simpl. auto.
  - reflexivity.
  - discriminate.
Defined.

(** With the scope [query] the optional path parameter is filtered out
    before any check, and the call returns. *)
Lemma optional_path_parameter_counterexample :
  obj_get [("id", z.optional z.string)] "id" = Some (z.optional z.string) /\
  instanceofZodTypeOptional (z.optional z.string) = true /\
  includes ["id"] "id" = true /\
  getParameterObjects acceptsUndefined true (IsZodType optionalIdInput) ["id"] None In_query
  = Ok (Some {| ZodOpenApiParameters.header := None;
                ZodOpenApiParameters.path := z.object [];
                ZodOpenApiParameters.query := z.object [] |}).
Proof. repeat split. Qed.

(** * The further properties at work on the examples *)

Lemma unknown_path_parameter_example :
  getParameterObjects acceptsUndefined true (IsZodType exampleInput)
    (["id"] ++ "slug" :: []) None In_all
  = Throw (TRPC {| TRPCError.message :=
                     "Input parser expects key from path: " ++ dquote ++ "slug" ++ dquote;
                   TRPCError.code := "INTERNAL_SERVER_ERROR" |}).
Proof.
  apply (@unknown_path_parameter acceptsUndefined true exampleInput
           [("id", z.string); ("name", z.optional z.string)] ["id"] "slug" [] None In_all).
  - reflexivity.
  - intros n [<-|[]]. simpl. auto.
  - simpl. intros [H|[H|[]]]; discriminate.
Defined.

Lemma input_not_object_example :
  getParameterObjects acceptsUndefined true (IsZodType z.void) ["id"] None In_all
  = Throw (TRPC {| TRPCError.message := "Input parser must be a ZodObject";
                   TRPCError.code := "INTERNAL_SERVER_ERROR" |}) /\
  getRequestBodyObject acceptsUndefined (IsZodType z.void) ["id"] ["application/json"]
  = Throw (TRPC {| TRPCError.message := "Input parser must be a ZodObject";
                   TRPCError.code := "INTERNAL_SERVER_ERROR" |}).
Proof.
  apply (@input_not_object acceptsUndefined true z.void ["id"] None In_all
           ["application/json"]).
  - reflexivity.
  - left. discriminate.
Defined.

Lemma getParameterObjects_errors_example :
  exists message,
    TRPC {| TRPCError.message :=
              "Input parser key: " ++ dquote ++ "tags" ++ dquote
              ++ " must be ZodString, ZodNumber, ZodBoolean, ZodBigInt or ZodDate";
            TRPCError.code := "INTERNAL_SERVER_ERROR" |}
    = TRPC {| TRPCError.message := message; TRPCError.code := "INTERNAL_SERVER_ERROR" |} /\
    (message = "Input parser expects a Zod validator" \/
     message = "Input parser must be a ZodObject" \/
     (exists name, In name ["id"] /\
        message = ("Input parser expects key from path: " ++ dquote ++ name ++ dquote)%string) \/
     (exists key, filterShapeKey ["id"] In_all key = true /\
        message = ("Input parser key: " ++ dquote ++ key ++ dquote
                   ++ (if true
                       then " must be ZodString, ZodNumber, ZodBoolean, ZodBigInt or ZodDate"
                       else " must be ZodString"))%string) \/
     (exists key, In key ["id"] /\
        message = ("Path parameter: " ++ dquote ++ key ++ dquote
                   ++ " must not be optional")%string)).
Proof.
  apply (@getParameterObjects_errors acceptsUndefined true (IsZodType tagsInput)
           ["id"] None In_all).
  reflexivity.
Defined.

Lemma getParameterObjects_accepts_example :
  (exists r,
     getParameterObjects acceptsUndefined true (IsZodType exampleInput) ["id"] None In_all
     = Ok (Some r)) <->
  (forall name, In name ["id"] ->
     In name (Object_keys [("id", z.string); ("name", z.optional z.string)])) /\
  (forall key node,
     filterShapeKey ["id"] In_all key = true ->
     obj_get [("id", z.string); ("name", z.optional z.string)] key = Some node ->
     (instanceofZodTypeLikeString node = true \/
      instanceofZodTypeCoercible true node = true) /\
     (instanceofZodTypeOptional node = true -> ~ In key ["id"])).
Proof.
  apply (@getParameterObjects_accepts acceptsUndefined true exampleInput
           [("id", z.string); ("name", z.optional z.string)] ["id"] None In_all).
  reflexivity.
Defined.

Lemma body_errors_are_parameter_errors_example :
  getParameterObjects acceptsUndefined true (NotZodType (JsonString "id")) [] None In_all
  = Throw (TRPC {| TRPCError.message := "Input parser expects a Zod validator";
                   TRPCError.code := "INTERNAL_SERVER_ERROR" |}).
Proof.
  apply (@body_errors_are_parameter_errors acceptsUndefined true
           (NotZodType (JsonString "id")) [] None In_all ["application/json"]).
  reflexivity.
Defined.

Lemma scope_partition_example :
  (In "id" (fieldNames (ZodOpenApiParameters.path exampleQueryParameters)) <->
   In "id" ["id"] /\ In_query <> In_query) /\
  (In "id" (fieldNames (ZodOpenApiParameters.query exampleQueryParameters)) <->
   In "id" (Object_keys [("id", z.string); ("name", z.optional z.string)]) /\
   ~ In "id" ["id"] /\ In_query <> In_path).
Proof.
  apply (@scope_partition acceptsUndefined true exampleInput
           [("id", z.string); ("name", z.optional z.string)] ["id"] None In_query
           exampleQueryParameters).
  - reflexivity.
  - reflexivity.
Defined.

Lemma derived_field_order_example :
  fieldNames (ZodOpenApiParameters.path exampleParameters)
  = filter (fun key => includes ["id"] key)
           (filter (filterShapeKey ["id"] In_all)
                   (Object_keys [("id", z.string); ("name", z.optional z.string)])) /\
  fieldNames (ZodOpenApiParameters.query exampleParameters)
  = filter (fun key => negb (includes ["id"] key))
           (filter (filterShapeKey ["id"] In_all)
                   (Object_keys [("id", z.string); ("name", z.optional z.string)])).
Proof.
  apply (@derived_field_order acceptsUndefined true exampleInput
           [("id", z.string); ("name", z.optional z.string)] ["id"] None In_all
           exampleParameters).
  - reflexivity.
  - simpl. repeat constructor; simpl; intuition discriminate.
  - reflexivity.
Defined.

Lemma scope_all_splits_example :
  getParameterObjects acceptsUndefined true (IsZodType exampleInput) ["id"] None In_path
  = Ok (Some {| ZodOpenApiParameters.header := None;
                ZodOpenApiParameters.path := ZodOpenApiParameters.path exampleParameters;
                ZodOpenApiParameters.query := z.object [] |}) /\
  getParameterObjects acceptsUndefined true (IsZodType exampleInput) ["id"] None In_query
  = Ok (Some {| ZodOpenApiParameters.header := None;
                ZodOpenApiParameters.path := z.object [];
                ZodOpenApiParameters.query := ZodOpenApiParameters.query exampleParameters |}).
Proof.
  apply (@scope_all_splits acceptsUndefined true exampleInput ["id"] None exampleParameters).
  reflexivity.
Defined.

Lemma optional_markers_example :
  exists path query,
    ZodOpenApiParameters.path exampleParameters = z.object path /\
    ZodOpenApiParameters.query exampleParameters = z.object query /\
    (forall key derived,
       obj_get path key = Some derived -> instanceofZodTypeOptional derived = false) /\
    (acceptsUndefined exampleInput = true ->
     forall key derived,
       obj_get query key = Some derived -> instanceofZodTypeOptional derived = true).
Proof.
  apply (@optional_markers acceptsUndefined true exampleInput ["id"] None In_all
           exampleParameters).
  reflexivity.
Defined.

Lemma path_parameters_as_set_example :
  getRequestBodyObject acceptsUndefined (IsZodType exampleInput) ["id"] ["application/json"]
  = getRequestBodyObject acceptsUndefined (IsZodType exampleInput) ["id"; "id"]
      ["application/json"] /\
  (forall r,
     getParameterObjects acceptsUndefined true (IsZodType exampleInput) ["id"] None In_all
     = Ok r ->
     getParameterObjects acceptsUndefined true (IsZodType exampleInput) ["id"; "id"]
       None In_all = Ok r).
Proof.
  apply (@path_parameters_as_set acceptsUndefined true (IsZodType exampleInput)
           ["id"] ["id"; "id"] None In_all ["application/json"]).
  intros name. simpl. tauto.
Defined.

(** ** C3 *)

(** C3: [getRequestBodyObject] removes more than the fields named in
    [pathParameters]: a field named like a member of [Object.prototype] goes
    too.  For [{ id, constructor }] with the path parameter [id] the field
    [constructor] is no path parameter, yet the body is absent; with a
    further field [name] the body is present and its schema has lost
    [constructor]. *)
Theorem getRequestBodyObject_prototype_field :
  z.shape (unwrapZodType constructorInput true)
  = Some [("id", z.string); ("constructor", z.string)] /\
  ~ In "constructor" ["id"] /\
  getRequestBodyObject acceptsUndefined (IsZodType constructorInput) ["id"]
    ["application/json"] = Ok None /\
  getRequestBodyObject acceptsUndefined
    (IsZodType (z.object [("id", z.string); ("constructor", z.string); ("name", z.string)]))
    ["id"] ["application/json"]
  = Ok (Some {| ZodOpenApiRequestBodyObject.required := true;
                ZodOpenApiRequestBodyObject.content :=
                  [("application/json",
                    {| ZodOpenApiMediaTypeObject.schema :=
                         ZodSchema (z.object [("name", z.string)]) |})] |}).
Proof.
  repeat split. simpl. intros [H|[]]. discriminate.
Qed.

(** * More examples *)

(** A schema with a default is not optional-wrapped, but it accepts an
    absent value: its field, required by itself, becomes an optional query
    parameter. *)
Lemma getParameterObjects_required_counterexample :
  instanceofZodTypeOptional defaultInput = false /\
  acceptsUndefined defaultInput = true /\
  z.shape (unwrapZodType defaultInput true) = Some [("name", z.string)] /\
  instanceofZodTypeOptional z.string = false /\
  acceptsUndefined z.string = false /\
  getParameterObjects acceptsUndefined true (IsZodType defaultInput) [] None In_all
  = Ok (Some {| ZodOpenApiParameters.header := None;
                ZodOpenApiParameters.path := z.object [];
                ZodOpenApiParameters.query := z.object [("name", z.optional z.string)] |}).
Proof. repeat split. Qed.

Lemma unsupported_field_type_example :
  let err :=
    {| TRPCError.message :=
         "Input parser key: " ++ dquote ++ "tags" ++ dquote
         ++ " must be ZodString, ZodNumber, ZodBoolean, ZodBigInt or ZodDate";
       TRPCError.code := "INTERNAL_SERVER_ERROR" |} in
  mapShapeKey acceptsUndefined true (negb (acceptsUndefined tagsInput))
    [("id", z.string); ("tags", z.array z.string)] ["id"] "tags" = Throw (TRPC err) /\
  (exists err',
     getParameterObjects acceptsUndefined true (IsZodType tagsInput) ["id"] None In_all
     = Throw (TRPC err') /\
     TRPCError.code err' = "INTERNAL_SERVER_ERROR") /\
  ((forall name, In name ["id"] ->
      In name (Object_keys [("id", z.string); ("tags", z.array z.string)])) ->
   forall before after,
     filter (filterShapeKey ["id"] In_all)
            (Object_keys [("id", z.string); ("tags", z.array z.string)])
     = before ++ "tags" :: after ->
     (forall k, In k before ->
        exists p, mapShapeKey acceptsUndefined true (negb (acceptsUndefined tagsInput))
                    [("id", z.string); ("tags", z.array z.string)] ["id"] k = Ok p) ->
     getParameterObjects acceptsUndefined true (IsZodType tagsInput) ["id"] None In_all
     = Throw (TRPC err)).
Proof.
  apply (@unsupported_field_type acceptsUndefined true tagsInput
           [("id", z.string); ("tags", z.array z.string)] ["id"] None In_all
           "tags" (z.array z.string)).
  - reflexivity.
  - reflexivity.
  - reflexivity.
  - reflexivity.
  - reflexivity.
Defined.

(** The field [tags] is selected and is neither string-like nor coercible,
    but the optional path parameter [id] before it is rejected first. *)
Lemma unsupported_field_type_counterexample :
  z.shape (unwrapZodType optionalIdTagsInput true)
  = Some [("id", z.optional z.string); ("tags", z.array z.string)] /\
  obj_get [("id", z.optional z.string); ("tags", z.array z.string)] "tags"
  = Some (z.array z.string) /\
  filterShapeKey ["id"] In_all "tags" = true /\
  instanceofZodTypeLikeString (z.array z.string) = false /\
  instanceofZodTypeCoercible true (z.array z.string) = false /\
  getParameterObjects acceptsUndefined true (IsZodType optionalIdTagsInput) ["id"] None In_all
  = Throw (TRPC {| TRPCError.message :=
                     "Path parameter: " ++ dquote ++ "id" ++ dquote
                     ++ " must not be optional";
                   TRPCError.code := "INTERNAL_SERVER_ERROR" |}).
Proof. repeat split. Qed.




Lemma derived_node_base_type_example :
  exists path query,
    ZodOpenApiParameters.path exampleParameters = z.object path /\
    ZodOpenApiParameters.query exampleParameters = z.object query /\
    forall key derived,
      obj_get path key = Some derived \/ obj_get query key = Some derived ->
      exists node base,
        obj_get [("id", z.string); ("name", z.optional z.string)] key = Some node /\
        (if instanceofZodTypeOptional node
         then z.unwrap node = Some base
         else base = node) /\
        (derived = base \/ derived = z.optional base) /\
        (instanceofZodTypeLikeString derived = true \/
         instanceofZodTypeCoercible true derived = true).
Proof.
  apply (@derived_node_base_type acceptsUndefined true exampleInput
           [("id", z.string); ("name", z.optional z.string)] ["id"] None In_all
           exampleParameters).
  - reflexivity.
  - reflexivity.
Defined.

